(** * Clinic back end (server.js): request handlers over JSON files

    A shallow embedding of the Express handlers of [server.js] and the
    properties of the handlers that the specification states.

    Conventions of the model.
    - A JSON value is a [json]; a JavaScript object is a finite map from
      property names to JSON values ([gmap string json]).  Reading a
      property that is absent gives [undefined], modelled as [None].
    - Numbers are integers: the only numbers the program creates are the
      [Date.now()] time stamps it uses as ids.
    - Every data file, when it parses, holds an array of objects (this is
      what every handler writes).  [.find], [.findIndex], [.push], [.map]
      and property reads then never throw, so the [catch] blocks of the
      handlers (status 500) are unreachable and are not modelled.
    - A request body is an object, as [express.json()] delivers it.
    - Objects are compared up to the order of their properties.
    - Strings are compared as wholes; where a string is split into its
      characters ([chars]) a character is one [ascii].
    - What a handler cannot decide is an input of it: the clock and the
      outcome of [fs.writeFile] ([env]), and the comparison [==] between
      a stored id and a route parameter ([loose_eq]); for the
      registrations also ToString of a value that is not a string and
      the comparison of a string with a number ([to_string],
      [string_lt]).  A handler maps a request and the files to a
      response and the files. *)

From Stdlib Require Import Ascii.
From stdpp Require Import gmap strings list fin_maps pretty.

(** ** JSON values *)

#[warnings="-register-all"]
Inductive json :=
  | JNull
  | JBool (b : bool)
  | JNum (n : Z)
  | JStr (s : string)
  | JArr (l : list json)
  | JObj (o : gmap string json).

(** A JavaScript value read from an object: [None] is [undefined]. *)
Abbreviation jsval := (option json) (only parsing).
Abbreviation obj := (gmap string json) (only parsing).

(** ToBoolean: [!x] is [negb (truthy x)]. *)
Definition truthy (v : jsval) : bool :=
  match v with
  | None => false
  | Some JNull => false
  | Some (JBool b) => b
  | Some (JNum n) => negb (n =? 0)%Z
  | Some (JStr s) => negb (String.eqb s "")
  | Some (JArr _) => true
  | Some (JObj _) => true
  end.

(** [a === b] for two values that come from different [JSON.parse] calls
    (a request body and a data file, or a value and a literal): primitives
    are compared by value, and two arrays or objects are never the same
    reference. *)
Definition strict_eq (a b : jsval) : bool :=
  match a, b with
  | None, None => true
  | Some JNull, Some JNull => true
  | Some (JBool x), Some (JBool y) => Bool.eqb x y
  | Some (JNum x), Some (JNum y) => (x =? y)%Z
  | Some (JStr x), Some (JStr y) => String.eqb x y
  | _, _ => false
  end.

(** The properties of an array seen as an object: ["0"], ["1"], ... *)
Definition index_map (l : list json) : obj :=
  list_to_map (imap (λ i x, (pretty i, x)) l).

(** The characters of a string, one string per character. *)
Fixpoint chars (s : string) : list json :=
  match s with
  | EmptyString => []
  | String c s' => JStr (String c EmptyString) :: chars s'
  end.

(** Object spread [{...v}]: the own enumerable properties of [v]. *)
Definition spread (v : jsval) : obj :=
  match v with
  | Some (JObj o) => o
  | Some (JArr l) => index_map l
  | Some (JStr s) => index_map (chars s)
  | _ => ∅
  end.

(** [o.k = v] as it shows once [o] is serialised: [JSON.stringify] leaves
    out a property whose value is [undefined]. *)
Definition set_prop (k : string) (v : jsval) (o : obj) : obj :=
  match v with
  | Some x => <[k := x]> o
  | None => delete k o
  end.

(** [x.k = v] where [x] is any value.  On an object the property is set;
    on an array a property that is not an index is not serialised; on a
    primitive the assignment does nothing (the file is not in strict
    mode). *)
Definition assign_prop (k : string) (v : jsval) (x : json) : json :=
  match x with
  | JObj o => JObj (set_prop k v o)
  | _ => x
  end.

(** The object literal [{k1: o.k1, ..., kn: o.kn}], serialised. *)
Definition pick (ks : list string) (o : obj) : obj :=
  foldr (λ k acc, set_prop k (o !! k) acc) ∅ ks.

(** ** Arrays: [find] and [findIndex] *)

(** The first element that satisfies [p], with its index.  [findIndex]
    returns the index (or -1, here [None]) and [find] the element (or
    [undefined]). *)
Fixpoint find_from {A} (p : A → bool) (l : list A) (i : nat) : option (nat * A) :=
  match l with
  | [] => None
  | x :: l' => if p x then Some (i, x) else find_from p l' (S i)
  end.

Definition findIndex {A} (p : A → bool) (l : list A) : option (nat * A) :=
  find_from p l 0.

Definition find {A} (p : A → bool) (l : list A) : option A :=
  snd <$> findIndex p l.

(** ** The data files *)

(** What is on disk under a file name: text that [JSON.parse] rejects, or
    an array of records.  A name that is not in the store is a file that
    does not exist. *)
Inductive file :=
  | Unparseable
  | Parsed (records : list (gmap string json)).

Abbreviation store := (gmap string file) (only parsing).

(** What the environment decides for one request: the clock, and whether
    [fs.writeFile] succeeds. *)
Record env := {
  date_now : Z;            (* Date.now() *)
  iso_string : string;     (* new Date().toISOString() *)
  locale_string : string;  (* new Date().toLocaleString('pt-BR') *)
  disk_ok : bool           (* fs.writeFile does not throw *)
}.

(** [readJSON]: the parsed file, or [[]] when reading or parsing throws. *)
Definition readJSON (st : store) (filename : string) : list obj :=
  match st !! filename with
  | Some (Parsed records) => records
  | Some Unparseable => []
  | None => []
  end.

(** [writeJSON]: replaces the whole file and returns [true], or returns
    [false] when the write throws; a write that throws leaves the file as
    it was. *)
Definition writeJSON (e : env) (filename : string) (data : list obj)
    (st : store) : bool * store :=
  if disk_ok e then (true, <[filename := Parsed data]> st) else (false, st).

(** ** Requests and responses *)

(** A request: the route parameter, the JSON body, and the role the client
    was given by [/api/login] ('medico', 'tutor', 'funcionario'), if it
    logged in at all.  The server keeps no session; [caller] stands for
    whatever identifies the client. *)
Record request := {
  caller : option string;
  param : string;
  body : gmap string json
}.

(** The body of a response, as sent by [res.json]. *)
Abbreviation response := (gmap string json) (only parsing).

Definition failure (message : string) : response :=
  {[ "success" := JBool false; "message" := JStr message ]}.

Definition success (message : string) : response :=
  {[ "success" := JBool true; "message" := JStr message ]}.

(** ** The handlers *)

Section Handlers.

(** [v == id] between a stored id and the route parameter [id], which is
    always a string.  The handlers are modelled for any such comparison;
    [loose_eq_id] below is the one for string and integer ids. *)
Variable loose_eq : jsval → string → bool.

(** *** POST /api/login *)

Definition login_medico (login senha : jsval) (st : store) : option response :=
  match find (λ m, strict_eq (m !! "login") login) (readJSON st "medicos.json") with
  | Some medico =>
      if strict_eq senha (medico !! "senha") then
        Some {[ "success" := JBool true;
                "user" := JObj (set_prop "senha" None
                                  (<["tipo" := JStr "medico"]> medico)) ]}
      else None
  | None => None
  end.

Definition login_tutor (login senha : jsval) (st : store) : option response :=
  match find (λ u, strict_eq (u !! "login") login) (readJSON st "usuarios.json") with
  | Some tutor =>
      if strict_eq senha (tutor !! "senha") then
        Some {[ "success" := JBool true;
                "user" := JObj (set_prop "senha" None
                                  (<["tipo" := JStr "tutor"]> tutor)) ]}
      else None
  | None => None
  end.

Definition login_funcionario (login senha : jsval) (st : store) : option response :=
  match find (λ f, strict_eq (f !! "login") login) (readJSON st "funcionarios.json") with
  | Some funcionario =>
      if strict_eq senha (funcionario !! "senha") then
        Some {[ "success" := JBool true;
                "user" := JObj (<["tipo" := JStr "funcionario"]>
                                  (pick ["id"; "nome"; "login"; "contato"; "role"]
                                     funcionario)) ]}
      else None
  | None => None
  end.

(** The three searches in the order of the handler; each one that does not
    return falls through to the next. *)
Definition post_login (rq : request) (st : store) : response :=
  let login := body rq !! "login" in
  let senha := body rq !! "senha" in
  if negb (truthy login) || negb (truthy senha) then
    failure "Login e senha são obrigatórios!"
  else
    match login_medico login senha st with
    | Some r => r
    | None =>
        match login_tutor login senha st with
        | Some r => r
        | None =>
            match login_funcionario login senha st with
            | Some r => r
            | None => failure "Usuário ou senha incorretos!"
            end
        end
    end.

(** *** POST /api/salvar-pet *)

Definition novoPet (e : env) (petData : obj) : obj :=
  <["dataCadastro" := JStr (iso_string e)]>
    (<["observacoes" := JStr ""]>
       (<["anamnese" := JNull]>
          (<["tag" := JStr "green"]>
             (petData ∪ {[ "id" := JNum (date_now e) ]})))).

Definition post_salvar_pet (e : env) (rq : request) (st : store)
    : response * store :=
  let animais := readJSON st "animais.json" in
  let novo := novoPet e (body rq) in
  let animais' := animais ++ [novo] in
  let '(ok, st') := writeJSON e "animais.json" animais' st in
  if ok then ({[ "success" := JBool true; "pet" := JObj novo ]}, st')
  else (failure "Erro ao salvar pet", st').

(** *** GET /api/pets *)

Definition get_pets (st : store) : response :=
  let animais := readJSON st "animais.json" in
  {[ "success" := JBool true; "pets" := JArr (JObj <$> animais) ]}.

(** *** GET /api/pets-tutor/:cpf *)

Definition get_pets_tutor (rq : request) (st : store) : response :=
  let animais := readJSON st "animais.json" in
  let pets := filter (λ p, strict_eq (p !! "tutorCpf") (Some (JStr (param rq))) = true) animais in
  {[ "success" := JBool true; "pets" := JArr (JObj <$> pets) ]}.

(** *** The PUT handlers on one pet

    All of them read the collection, look the pet up with [findIndex],
    answer 'Pet não encontrado' when there is none, change the pet in
    place, write the whole collection and answer according to the write.
    [change] is what the handler does to [animais[petIndex]]. *)
Definition put_pet (change : obj → obj) (saved not_saved : string)
    (e : env) (rq : request) (st : store) : response * store :=
  let animais := readJSON st "animais.json" in
  match findIndex (λ p, loose_eq (p !! "id") (param rq)) animais with
  | None => (failure "Pet não encontrado", st)
  | Some (petIndex, pet) =>
      let animais' := <[petIndex := change pet]> animais in
      let '(ok, st') := writeJSON e "animais.json" animais' st in
      if ok then (success saved, st') else (failure not_saved, st')
  end.

(** [if (!pet.k) pet.k = {}], then the value of [pet.k]. *)
Definition or_empty (v : jsval) : json :=
  match v with
  | Some x => if truthy v then x else JObj ∅
  | None => JObj ∅
  end.

(** PUT /api/salvar-anamnese/:id *)
Definition anamnese_change (e : env) (anamneseData : obj) (pet : obj) : obj :=
  <["anamnese" := JObj (<["data" := JStr (locale_string e)]> anamneseData)]> pet.

Definition put_salvar_anamnese (e : env) (rq : request) :=
  put_pet (anamnese_change e (body rq))
    "Anamnese salva com sucesso!" "Erro ao salvar anamnese" e rq.

(** PUT /api/salvar-historico-clinico/:id *)
Definition historico_change (e : env) (b : obj) (pet : obj) : obj :=
  let exames := or_empty (pet !! "exames") in
  let exames := assign_prop "historicoClinico" (b !! "historicoClinico") exames in
  let exames := assign_prop "dataHistorico" (Some (JStr (locale_string e))) exames in
  <["exames" := exames]> pet.

Definition put_salvar_historico_clinico (e : env) (rq : request) :=
  put_pet (historico_change e (body rq))
    "Histórico clínico salvo com sucesso!" "Erro ao salvar histórico clínico" e rq.

(** [pet.k = {...pet.k, ...data, stamp: now}] after [pet.k] was set to
    [{}] when it was falsy. *)
Definition merge_change (k stamp : string) (e : env) (data : obj) (pet : obj) : obj :=
  let old := or_empty (pet !! k) in
  <[k := JObj (<[stamp := JStr (locale_string e)]> (data ∪ spread (Some old)))]> pet.

(** PUT /api/salvar-vacinacao/:id *)
Definition put_salvar_vacinacao (e : env) (rq : request) :=
  put_pet (merge_change "exames" "dataVacinacao" e (body rq))
    "Vacinação salva com sucesso!" "Erro ao salvar vacinação" e rq.

(** PUT /api/salvar-consultas/:id (the first handler registered for this
    route; it always answers, so the second one never runs). *)
Definition put_salvar_consultas (e : env) (rq : request) :=
  put_pet (merge_change "consultas" "dataAtualizacao" e (body rq))
    "Consultas salvas com sucesso!" "Erro ao salvar consultas" e rq.

(** PUT /api/salvar-exames/:id *)
Definition put_salvar_exames (e : env) (rq : request) :=
  put_pet (merge_change "exames" "dataExames" e (body rq))
    "Exames salvos com sucesso!" "Erro ao salvar exames" e rq.

(** PUT /api/salvar-observacoes/:id (again the first handler registered). *)
Definition observacoes_change (e : env) (b : obj) (pet : obj) : obj :=
  <["dataObservacoes" := JStr (locale_string e)]>
    (set_prop "observacoes" (b !! "observacoes") pet).

Definition put_salvar_observacoes (e : env) (rq : request) :=
  put_pet (observacoes_change e (body rq))
    "Observações salvas com sucesso!" "Erro ao salvar observações" e rq.

(** PUT /api/alterar-tag/:id *)
Definition tag_change (b : obj) (pet : obj) : obj :=
  set_prop "tag" (b !! "tag") pet.

Definition put_alterar_tag (e : env) (rq : request) :=
  put_pet (tag_change (body rq))
    "Tag alterada com sucesso!" "Erro ao alterar tag" e rq.

(** *** GET /api/funcionarios *)

Definition safe_funcionario (f : obj) : obj :=
  pick ["id"; "nome"; "login"; "contato"; "role"; "crmv"] f.

Definition get_funcionarios (st : store) : response :=
  let funcionarios := readJSON st "funcionarios.json" in
  {[ "success" := JBool true;
     "funcionarios" := JArr (JObj <$> (safe_funcionario <$> funcionarios)) ]}.

(** *** PUT /api/funcionarios/:id *)

Definition is_role (v : jsval) (r : string) : bool := strict_eq v (Some (JStr r)).

(** The role rules, in the order of the handler: the message of the first
    rule that rejects the change from [from] to [to]. *)
Definition role_rule (from to : jsval) : option string :=
  if is_role from "Medico vet" then
    Some "Usuário Veterinário não pode ser alterado."
  else if (is_role from "Recepção" || is_role from "Internação")
          && negb (strict_eq to from) then
    Some "Funcionários de Recepção ou Internação não podem alterar o cargo."
  else if is_role from "Estagiario" && negb (is_role to "Vet junior") then
    Some "Estagiário só pode mudar para Vet junior."
  else if is_role from "Vet junior" && negb (is_role to "Medico vet") then
    Some "Vet junior só pode mudar para Medico vet."
  else None.

(** [if (updateData.role && updateData.role !== current.role) { ... }] *)
Definition role_check (updateData current : obj) : option string :=
  if truthy (updateData !! "role")
     && negb (strict_eq (updateData !! "role") (current !! "role"))
  then role_rule (current !! "role") (updateData !! "role")
  else None.

(** [delete updateData.crmv] for an Estagiario who is not promoted. *)
Definition strip_crmv (updateData current : obj) : obj :=
  if is_role (current !! "role") "Estagiario" then
    let targetRole :=
      if truthy (updateData !! "role") then updateData !! "role"
      else current !! "role" in
    if negb (is_role targetRole "Vet junior" || is_role targetRole "Medico vet")
    then delete "crmv" updateData
    else updateData
  else updateData.

(** [{ ...funcionarios[idx], ...allowed }] *)
Definition apply_update (updateData current : obj) : obj :=
  let updateData := strip_crmv updateData current in
  let allowed := delete "dataCadastro" (delete "id" updateData) in
  allowed ∪ current.

Definition put_funcionario (e : env) (rq : request) (st : store)
    : response * store :=
  let funcionarios := readJSON st "funcionarios.json" in
  match findIndex (λ f, loose_eq (f !! "id") (param rq)) funcionarios with
  | None => (failure "Funcionário não encontrado", st)
  | Some (idx, current) =>
      match role_check (body rq) current with
      | Some message => (failure message, st)
      | None =>
          let updated := apply_update (body rq) current in
          let funcionarios' := <[idx := updated]> funcionarios in
          let '(ok, st') := writeJSON e "funcionarios.json" funcionarios' st in
          if ok then
            ({[ "success" := JBool true;
                "message" := JStr "Funcionário atualizado com sucesso";
                "funcionario" := JObj (delete "senha" updated) ]}, st')
          else (failure "Erro ao salvar funcionário", st')
      end
  end.

(** *** The record a route parameter selects *)

(** The pet that [findIndex(p => p.id == id)] selects. *)
Definition matched_pet (rq : request) (st : gmap string file) : option (nat * gmap string json) :=
  findIndex (λ p, loose_eq (p !! "id") (param rq)) (readJSON st "animais.json").

(** The record that [findIndex(f => f.id == id)] selects. *)
Definition matched_funcionario (rq : request) (st : gmap string file)
    : option (nat * gmap string json) :=
  findIndex (λ f, loose_eq (f !! "id") (param rq)) (readJSON st "funcionarios.json").

End Handlers.

(** ** A concrete [==] for ids *)

Definition digit (c : ascii) : option Z :=
  let n := Z.of_nat (nat_of_ascii c) in
  if ((48 <=? n) && (n <=? 57))%Z then Some (n - 48)%Z else None.

Fixpoint decimal (s : string) (acc : Z) : option Z :=
  match s with
  | EmptyString => Some acc
  | String c s' =>
      match digit c with
      | Some d => decimal s' (10 * acc + d)%Z
      | None => None
      end
  end.

(** The number a string spells, for the empty string and for plain decimal
    digits with an optional sign; [None] stands for NaN.  The other
    spellings JavaScript reads as numbers (blanks around the digits,
    fractions, exponents, hexadecimal) are taken as NaN here. *)
Definition to_number (s : string) : option Z :=
  match s with
  | String "-" s' => if String.eqb s' "" then None else Z.opp <$> decimal s' 0
  | String "+" s' => if String.eqb s' "" then None else decimal s' 0
  | _ => decimal s 0
  end.

(** [v == id] for a string [id]: a string is compared as a string, a
    number with the number that [id] spells, a boolean as 0 or 1;
    [null] and [undefined] are equal to no string.  Stored ids that are
    arrays or objects are taken as different from every parameter. *)
Definition loose_eq_id (v : jsval) (id : string) : bool :=
  match v with
  | Some (JStr s) => String.eqb s id
  | Some (JNum n) =>
      match to_number id with Some m => (n =? m)%Z | None => false end
  | Some (JBool b) =>
      match to_number id with
      | Some m => ((if b then 1 else 0) =? m)%Z
      | None => false
      end
  | _ => false
  end.

(** ** Sample data *)

Module Sample.

Definition clock : env :=
  {| date_now := 1700000000000;
     iso_string := "2023-11-14T22:13:20.000Z";
     locale_string := "14/11/2023, 19:13:20";
     disk_ok := true |}.

Definition full_disk : env :=
  {| date_now := 1700000000000;
     iso_string := "2023-11-14T22:13:20.000Z";
     locale_string := "14/11/2023, 19:13:20";
     disk_ok := false |}.

Definition rex : gmap string json :=
  {[ "id" := JNum 1; "nome" := JStr "Rex"; "tutorCpf" := JStr "12345678901";
     "tag" := JStr "green"; "anamnese" := JNull; "observacoes" := JStr "" ]}.

Definition mimi : gmap string json :=
  {[ "id" := JNum 2; "nome" := JStr "Mimi"; "tutorCpf" := JStr "12345678901";
     "tag" := JStr "red";
     "exames" := JObj {[ "historicoClinico" := JStr "alergia";
                         "vacina" := JStr "V8";
                         "dataVacinacao" := JStr "01/10/2023, 09:00:00" ]} ]}.

Definition dra_ana : gmap string json :=
  {[ "nome" := JStr "Ana"; "login" := JStr "ana"; "crmv" := JStr "1234";
     "contato" := JStr "11999990000"; "senha" := JStr "segredo1" ]}.

Definition tutor_bia : gmap string json :=
  {[ "nome" := JStr "Bia"; "cpf" := JStr "12345678901";
     "login" := JStr "12345678901"; "senha" := JStr "segredo2" ]}.

Definition carlos : gmap string json :=
  {[ "id" := JNum 10; "nome" := JStr "Carlos"; "login" := JStr "carlos";
     "contato" := JStr "11988880000"; "senha" := JStr "segredo3";
     "role" := JStr "Medico vet"; "crmv" := JStr "5678";
     "dataCadastro" := JStr "2023-01-01T00:00:00.000Z" ]}.

Definition duda : gmap string json :=
  {[ "id" := JNum 11; "nome" := JStr "Duda"; "login" := JStr "duda";
     "contato" := JStr "11977770000"; "senha" := JStr "";
     "role" := JStr "Estagiario"; "crmv" := JNull;
     "dataCadastro" := JStr "2023-02-01T00:00:00.000Z" ]}.

Definition disk : gmap string file :=
  {[ "animais.json" := Parsed [rex; mimi];
     "medicos.json" := Parsed [dra_ana];
     "usuarios.json" := Parsed [tutor_bia];
     "funcionarios.json" := Parsed [carlos; duda] ]}.

Definition req (who : option string) (id : string) (b : gmap string json) : request :=
  {| caller := who; param := id; body := b |}.

End Sample.

(** * The rest of [server.js] *)

(** ** Strings as JavaScript sees them *)

(** A string of the model is the UTF-8 text of the JavaScript string.  The
    number of UTF-16 code units ([s.length]) a byte accounts for: one for
    an ASCII byte and for the first byte of a two or three byte sequence,
    two for the first byte of a four byte sequence (a surrogate pair),
    none for a continuation byte. *)
Definition code_units (c : ascii) : nat :=
  let n := nat_of_ascii c in
  if (n <? 128)%nat then 1
  else if (n <? 192)%nat then 0
  else if (n <? 240)%nat then 1
  else 2.

(** [s.length] *)
Fixpoint js_length (s : string) : nat :=
  match s with
  | EmptyString => 0
  | String c s' => code_units c + js_length s'
  end.

(** [\d] *)
Definition is_digit (c : ascii) : bool :=
  match digit c with Some _ => true | None => false end.

(** [/^\d{min,max}$/.test(s)]: the whole of [s] is digits, at least [min]
    and at most [max] of them. *)
Fixpoint digits_only (min max : nat) (s : string) {struct s} : bool :=
  match s with
  | EmptyString => match min with O => true | S _ => false end
  | String c s' =>
      match max with
      | O => false
      | S max' => is_digit c && digits_only (Nat.pred min) max' s'
      end
  end.

(** [validateCPF]: [/^\d{11}$/] *)
Definition validateCPF (cpf : string) : bool := digits_only 11 11 cpf.

(** [validatePhone]: [/^\d{10,11}$/] *)
Definition validatePhone (phone : string) : bool := digits_only 10 11 phone.

(** ** Registering users *)

Section Registration.

(** The two conversions that JavaScript makes on its own in these
    handlers: ToString of a value that is not a string (the argument of
    [regex.test]), and [s < n] for a string [s] and a number [n], which
    reads [s] as a number.  The handlers are modelled for any such
    conversions. *)
Variable to_string : json → string.
Variable string_lt : string → Z → bool.

(** The argument of [regex.test] as a string. *)
Definition text (v : option json) : string :=
  match v with
  | Some (JStr s) => s
  | Some x => to_string x
  | None => "undefined"
  end.

(** [v.length], for a [v] that is not [null] or [undefined]. *)
Definition length_of (v : option json) : option json :=
  match v with
  | Some (JStr s) => Some (JNum (Z.of_nat (js_length s)))
  | Some (JArr l) => Some (JNum (Z.of_nat (length l)))
  | Some (JObj o) => o !! "length"
  | _ => None
  end.

(** [v < n] for a number [n]: [undefined] is NaN and is less than
    nothing, [null] is 0, a boolean 0 or 1; an array or object is first
    made a string. *)
Definition less_than (v : option json) (n : Z) : bool :=
  match v with
  | None => false
  | Some JNull => (0 <? n)%Z
  | Some (JBool b) => ((if b then 1 else 0) <? n)%Z
  | Some (JNum m) => (m <? n)%Z
  | Some (JStr s) => string_lt s n
  | Some x => string_lt (to_string x) n
  end.

(** [senha.length < 6] *)
Definition short_senha (senha : option json) : bool :=
  less_than (length_of senha) 6.

(** *** POST /api/cadastrar-tutor *)

Definition novoTutor (e : env) (nome cpf telefone endereco senha : option json)
    : gmap string json :=
  set_prop "nome" nome
    (set_prop "cpf" cpf
       (set_prop "telefone" telefone
          (set_prop "endereco" endereco
             (set_prop "login" cpf
                (set_prop "senha" senha
                   {[ "dataCadastro" := JStr (iso_string e) ]}))))).

Definition post_cadastrar_tutor (e : env) (rq : request) (st : gmap string file)
    : gmap string json * gmap string file :=
  let nome := body rq !! "nome" in
  let cpf := body rq !! "cpf" in
  let telefone := body rq !! "telefone" in
  let endereco := body rq !! "endereco" in
  let senha := body rq !! "senha" in
  if negb (truthy nome) || negb (truthy cpf) || negb (truthy telefone)
     || negb (truthy endereco) || negb (truthy senha) then
    (failure "Todos os campos são obrigatórios!", st)
  else if negb (validateCPF (text cpf)) then
    (failure "CPF inválido!", st)
  else if negb (validatePhone (text telefone)) then
    (failure "Telefone inválido!", st)
  else if short_senha senha then
    (failure "A senha deve ter pelo menos 6 caracteres!", st)
  else
    let usuarios := readJSON st "usuarios.json" in
    match find (λ u, strict_eq (u !! "cpf") cpf) usuarios with
    | Some _ => (failure "CPF já cadastrado!", st)
    | None =>
        let usuarios' := usuarios ++ [novoTutor e nome cpf telefone endereco senha] in
        let '(ok, st') := writeJSON e "usuarios.json" usuarios' st in
        if ok then (success "Cadastro realizado com sucesso!", st')
        else (failure "Erro ao salvar dados", st')
    end.

(** *** POST /api/cadastrar-vet *)

Definition novoMedico (e : env) (nome login crmv contato senha : option json)
    : gmap string json :=
  set_prop "nome" nome
    (set_prop "login" login
       (set_prop "crmv" crmv
          (set_prop "contato" contato
             (set_prop "senha" senha
                {[ "dataCadastro" := JStr (iso_string e) ]})))).

Definition post_cadastrar_vet (e : env) (rq : request) (st : gmap string file)
    : gmap string json * gmap string file :=
  let nome := body rq !! "nome" in
  let login := body rq !! "login" in
  let crmv := body rq !! "crmv" in
  let contato := body rq !! "contato" in
  let senha := body rq !! "senha" in
  if negb (truthy nome) || negb (truthy login) || negb (truthy crmv)
     || negb (truthy contato) || negb (truthy senha) then
    (failure "Todos os campos são obrigatórios!", st)
  else if short_senha senha then
    (failure "A senha deve ter pelo menos 6 caracteres!", st)
  else if negb (validatePhone (text contato)) then
    (failure "Telefone inválido!", st)
  else
    let medicos := readJSON st "medicos.json" in
    match find (λ m, strict_eq (m !! "login") login) medicos with
    | Some _ => (failure "Login já cadastrado!", st)
    | None =>
        match find (λ m, strict_eq (m !! "crmv") crmv) medicos with
        | Some _ => (failure "CRMV já cadastrado!", st)
        | None =>
            let medicos' := medicos ++ [novoMedico e nome login crmv contato senha] in
            let '(ok, st') := writeJSON e "medicos.json" medicos' st in
            if ok then (success "Cadastro realizado com sucesso!", st')
            else (failure "Erro ao salvar dados", st')
        end
    end.

End Registration.

(** *** POST /api/cadastrar-funcionario *)

(** [crmv || null] *)
Definition crmv_or_null (crmv : option json) : option json :=
  if truthy crmv then crmv else Some JNull.

Definition novoFuncionario (e : env) (nome login contato senha role crmv : option json)
    : gmap string json :=
  set_prop "nome" nome
    (set_prop "login" login
       (set_prop "contato" contato
          (set_prop "senha" senha
             (set_prop "role" role
                (set_prop "crmv" (crmv_or_null crmv)
                   {[ "id" := JNum (date_now e);
                      "dataCadastro" := JStr (iso_string e) ]}))))).

Definition post_cadastrar_funcionario (e : env) (rq : request) (st : gmap string file)
    : gmap string json * gmap string file :=
  let nome := body rq !! "nome" in
  let login := body rq !! "login" in
  let contato := body rq !! "contato" in
  let senha := body rq !! "senha" in
  let role := body rq !! "role" in
  let crmv := body rq !! "crmv" in
  if negb (truthy nome) || negb (truthy login) || negb (truthy contato)
     || negb (truthy senha) then
    (failure "Campos obrigatórios ausentes", st)
  else
    let funcionarios := readJSON st "funcionarios.json" in
    match find (λ f, strict_eq (f !! "login") login) funcionarios with
    | Some _ => (failure "Login já cadastrado", st)
    | None =>
        if is_role role "Estagiario" && truthy crmv then
          (failure "Estagiário não pode ter CRMV.", st)
        else
          let novo := novoFuncionario e nome login contato senha role crmv in
          let funcionarios' := funcionarios ++ [novo] in
          let '(ok, st') := writeJSON e "funcionarios.json" funcionarios' st in
          if ok then
            ({[ "success" := JBool true;
                "message" := JStr "Funcionário cadastrado com sucesso";
                "funcionario" := JObj (set_prop "senha" None novo) ]}, st')
          else (failure "Erro ao salvar funcionário", st')
    end.

(** ** Removing a funcionario, updating a pet *)

Section Removal.

Variable loose_eq : option json → string → bool.

(** *** DELETE /api/funcionarios/:id *)

Definition delete_funcionario (e : env) (rq : request) (st : gmap string file)
    : gmap string json * gmap string file :=
  let funcionarios := readJSON st "funcionarios.json" in
  match findIndex (λ f, loose_eq (f !! "id") (param rq)) funcionarios with
  | None => (failure "Funcionário não encontrado", st)
  | Some (idx, current) =>
      if is_role (current !! "role") "Medico vet" then
        (failure "Não é permitido excluir usuário Veterinário.", st)
      else
        let funcionarios' := delete idx funcionarios in
        let '(ok, st') := writeJSON e "funcionarios.json" funcionarios' st in
        if ok then (success "Funcionário excluído com sucesso", st')
        else (failure "Erro ao excluir funcionário", st')
  end.

(** *** PUT /api/atualizar-pet/:id *)

Definition put_atualizar_pet (e : env) (rq : request) (st : gmap string file)
    : gmap string json * gmap string file :=
  let animais := readJSON st "animais.json" in
  match findIndex (λ p, loose_eq (p !! "id") (param rq)) animais with
  | None => (failure "Pet não encontrado", st)
  | Some (petIndex, pet) =>
      let updated := body rq ∪ pet in
      let animais' := <[petIndex := updated]> animais in
      let '(ok, st') := writeJSON e "animais.json" animais' st in
      if ok then
        ({[ "success" := JBool true;
            "message" := JStr "Pet atualizado com sucesso!";
            "pet" := JObj updated ]}, st')
      else (failure "Erro ao salvar alterações", st')
  end.

End Removal.

(** ** Conversions for the sample runs *)

(** ToString of a JSON value: an array is its elements joined by commas,
    with [null] as the empty string; an object is '[object Object]'.  (An
    integer of 22 digits or more is printed by JavaScript with an
    exponent; here it is printed in full.) *)
Fixpoint to_string_js (v : json) : string :=
  match v with
  | JNull => "null"
  | JBool b => if b then "true" else "false"
  | JNum n => pretty n
  | JStr s => s
  | JArr l =>
      String.concat ","
        (List.map (λ x, match x with JNull => "" | _ => to_string_js x end) l)
  | JObj _ => "[object Object]"
  end.

(** [s < n], with [s] read by [to_number]. *)
Definition string_lt_js (s : string) (n : Z) : bool :=
  match to_number s with
  | Some m => (m <? n)%Z
  | None => false
  end.

(** ** More sample data *)

Module Desk.

Definition novo_tutor_body : gmap string json :=
  {[ "nome" := JStr "Caio"; "cpf" := JStr "98765432100";
     "telefone" := JStr "11955550000"; "endereco" := JStr "Rua A, 1";
     "senha" := JStr "segredo5" ]}.

Definition novo_vet_body : gmap string json :=
  {[ "nome" := JStr "Davi"; "login" := JStr "davi"; "crmv" := JStr "9999";
     "contato" := JStr "11944440000"; "senha" := JStr "segredo6" ]}.

Definition novo_funcionario_body : gmap string json :=
  {[ "nome" := JStr "Eva"; "login" := JStr "eva";
     "contato" := JStr "11933330000"; "senha" := JStr "segredo7";
     "role" := JStr "Recepção" ]}.

Definition gil : gmap string json :=
  {[ "nome" := JStr "Gil"; "cpf" := JStr "11122233344";
     "telefone" := JStr "1144443333"; "endereco" := JStr "Rua B, 2";
     "login" := JStr "11122233344"; "senha" := JStr "segredo8";
     "dataCadastro" := JStr "2023-03-01T00:00:00.000Z" ]}.

Definition hugo : gmap string json :=
  {[ "nome" := JStr "Hugo"; "login" := JStr "hugo"; "crmv" := JStr "1111";
     "contato" := JStr "11977771111"; "senha" := JStr "segredo9";
     "dataCadastro" := JStr "2023-03-02T00:00:00.000Z" ]}.

Definition iris : gmap string json :=
  {[ "id" := JNum 12; "nome" := JStr "Iris"; "login" := JStr "iris";
     "contato" := JStr "11966660000"; "senha" := JStr "segredo0";
     "role" := JStr "Estagiario"; "crmv" := JNull;
     "dataCadastro" := JStr "2023-03-03T00:00:00.000Z" ]}.

Definition disk : gmap string file :=
  {[ "animais.json" := Parsed [Sample.rex; Sample.mimi];
     "medicos.json" := Parsed [hugo];
     "usuarios.json" := Parsed [gil];
     "funcionarios.json" := Parsed [Sample.carlos; iris] ]}.

End Desk.

(** * The vocabulary of the statements *)

(** ** Responses *)

(** The response says success=true. *)
Definition succeeded (resp : gmap string json) : Prop :=
  resp !! "success" = Some (JBool true).

(** The tipo of the user that a response carries. *)
Definition tipo_of (resp : gmap string json) : option json :=
  match resp !! "user" with
  | Some (JObj user) => user !! "tipo"
  | _ => None
  end.

(** ** Files *)

(** The file does not exist, or does not parse. *)
Definition unreadable (st : gmap string file) (f : string) : Prop :=
  st !! f = None ∨ st !! f = Some Unparseable.

(** ** Logging in *)

(** The first record whose login is the one supplied. *)
Definition by_login (login : option json) (l : list (gmap string json)) :=
  find (λ r, strict_eq (r !! "login") login) l.

(** Some record of the collection has the supplied login and the supplied
    senha. *)
Definition has_credentials (login senha : option json) (l : list (gmap string json)) : Prop :=
  ∃ r, r ∈ l ∧ strict_eq (r !! "login") login = true ∧
       strict_eq senha (r !! "senha") = true.

(** No two records of the collection have the same login. *)
Definition distinct_logins (l : list (gmap string json)) : Prop :=
  ∀ i j r1 r2, l !! i = Some r1 → l !! j = Some r2 →
    strict_eq (r1 !! "login") (r2 !! "login") = true → i = j.

(** The login rule as the specification states it: with distinct logins
    in each collection, the login succeeds exactly when one of the three
    collections has the supplied login with the supplied senha. *)
Definition login_as_stated (rq : request) (st : gmap string file) : Prop :=
  let login := body rq !! "login" in
  let senha := body rq !! "senha" in
  distinct_logins (readJSON st "medicos.json") →
  distinct_logins (readJSON st "usuarios.json") →
  distinct_logins (readJSON st "funcionarios.json") →
  succeeded (post_login rq st) ↔
    has_credentials login senha (readJSON st "medicos.json") ∨
    has_credentials login senha (readJSON st "usuarios.json") ∨
    has_credentials login senha (readJSON st "funcionarios.json").

(** ** Callers *)

(** The same request sent by another caller. *)
Definition sent_by (c : option string) (rq : request) : request :=
  {| caller := c; param := param rq; body := body rq |}.

(** A veterinarian or a member of staff. *)
Definition authorized (c : option string) : Prop :=
  c = Some "medico" ∨ c = Some "funcionario".

(** What a handler would do if it let only authorized callers append: a
    request from any other caller is answered success=false and changes
    nothing. *)
Definition refuses_unauthorized
    (handler : env → request → gmap string file → gmap string json * gmap string file) : Prop :=
  ∀ e rq st, ¬ authorized (caller rq) →
    (handler e rq st).1 !! "success" = Some (JBool false) ∧
    (handler e rq st).2 = st.

(** ** Merging *)

(** The merge as stated: [ex] has every field of [old] that is not a key
    of [data], every field of [data], and a field [stamp]. *)
Definition merge_as_stated (stamp : string) (old data ex : gmap string json) : Prop :=
  (∀ k v, old !! k = Some v → data !! k = None → ex !! k = Some v) ∧
  (∀ k v, data !! k = Some v → ex !! k = Some v) ∧
  is_Some (ex !! stamp).

(** The merge as the handlers do it: the same, except that the field
    [stamp] is the time of the save, whatever [old] or [data] had under
    that name. *)
Definition merge_with_stamp (stamp now : string) (old data ex : gmap string json) : Prop :=
  (∀ k, k ≠ stamp → data !! k = None → ex !! k = old !! k) ∧
  (∀ k v, k ≠ stamp → data !! k = Some v → ex !! k = Some v) ∧
  ex !! stamp = Some (JStr now).

(** ** Stores that differ in passwords *)

(** Two records that differ at most in the value of [senha]. *)
Definition same_but_senha (r1 r2 : gmap string json) : Prop :=
  delete "senha" r1 = delete "senha" r2.

(** Two stores whose files hold, record by record, the same data except
    for the stored [senha] values. *)
Definition senha_variant (st1 st2 : gmap string file) : Prop :=
  ∀ f, Forall2 same_but_senha (readJSON st1 f) (readJSON st2 f).

(** The check [senha === r.senha] that the login makes on a record with
    the supplied login has the same outcome on both records. *)
Definition same_check (login senha : option json) (r1 r2 : gmap string json) : Prop :=
  strict_eq (r1 !! "login") login = true →
  strict_eq senha (r1 !! "senha") = strict_eq senha (r2 !! "senha").

(** The same, for every record of every file. *)
Definition same_checks (rq : request) (st1 st2 : gmap string file) : Prop :=
  ∀ f, Forall2 (same_check (body rq !! "login") (body rq !! "senha"))
         (readJSON st1 f) (readJSON st2 f).
(** ** Registered users *)

(** No two records of the collection have the same value under [k]. *)
Definition distinct_field (k : string) (l : list (gmap string json)) : Prop :=
  ∀ i j r1 r2, l !! i = Some r1 → l !! j = Some r2 →
    strict_eq (r1 !! k) (r2 !! k) = true → i = j.

(** A value that [===] finds equal to a copy of itself: [undefined],
    [null], a boolean, a number or a string, not an array or object. *)
Definition primitive (v : option json) : Prop := strict_eq v v = true.

(** The characters of the string are all decimal digits. *)
Definition all_digits (s : string) : Prop :=
  Forall (λ c, is_digit c = true) (String.list_ascii_of_string s).

(** The body of a login request. *)
Definition credentials (login senha : json) : request :=
  {| caller := None; param := "";
     body := {[ "login" := login; "senha" := senha ]} |}.

(** The veterinarians among the staff, in the order of the file. *)
Definition medicos_vet (l : list (gmap string json)) : list (gmap string json) :=
  filter (λ r, is_role (r !! "role") "Medico vet" = true) l.

Section Kept.

Variable to_string : json → string.
Variable string_lt : string → Z → bool.

(** What [/api/cadastrar-tutor] checks of a record before it stores it:
    the fields are there, the CPF has 11 digits and is the login, the
    phone has 10 or 11 digits, the senha is not shorter than 6. *)
Definition tutor_ok (r : gmap string json) : Prop :=
  truthy (r !! "nome") = true ∧ truthy (r !! "cpf") = true ∧
  truthy (r !! "telefone") = true ∧ truthy (r !! "endereco") = true ∧
  truthy (r !! "senha") = true ∧
  validateCPF (text to_string (r !! "cpf")) = true ∧
  validatePhone (text to_string (r !! "telefone")) = true ∧
  short_senha to_string string_lt (r !! "senha") = false ∧
  r !! "login" = r !! "cpf".

(** What [/api/cadastrar-vet] checks of a record before it stores it. *)
Definition medico_ok (r : gmap string json) : Prop :=
  truthy (r !! "nome") = true ∧ truthy (r !! "login") = true ∧
  truthy (r !! "crmv") = true ∧ truthy (r !! "contato") = true ∧
  truthy (r !! "senha") = true ∧
  validatePhone (text to_string (r !! "contato")) = true ∧
  short_senha to_string string_lt (r !! "senha") = false.

End Kept.

(** What [/api/cadastrar-funcionario] checks of a record before it stores
    it: the required fields are there, and an Estagiario has no CRMV. *)
Definition funcionario_ok (r : gmap string json) : Prop :=
  truthy (r !! "nome") = true ∧ truthy (r !! "login") = true ∧
  truthy (r !! "contato") = true ∧ truthy (r !! "senha") = true ∧
  (is_role (r !! "role") "Estagiario" = true → truthy (r !! "crmv") = false).

(** * Properties *)

(** ** Objects *)

Lemma set_prop_lookup_ne k k' (v : option json) (o : gmap string json) :
  k ≠ k' → set_prop k v o !! k' = o !! k'.
Proof.
  intros Hne. destruct v as [x|]; simpl.
  - by rewrite lookup_insert_ne.
  - by rewrite lookup_delete_ne.
Qed.

Lemma set_prop_lookup_eq k (v : option json) (o : gmap string json) :
  set_prop k v o !! k = v.
Proof.
  destruct v as [x|]; simpl.
  - by rewrite lookup_insert_eq.
  - by rewrite lookup_delete_eq.
Qed.

Lemma pick_lookup ks k (o : gmap string json) :
  pick ks o !! k = if decide (k ∈ ks) then o !! k else None.
Proof.
  induction ks as [|k0 ks IH].
  - unfold pick; cbn [foldr]. rewrite lookup_empty.
    destruct (decide (k ∈ [])) as [Hin|]; [|done]. by apply elem_of_nil in Hin.
  - change (pick (k0 :: ks) o) with (set_prop k0 (o !! k0) (pick ks o)).
    destruct (decide (k0 = k)) as [->|Hne].
    + rewrite set_prop_lookup_eq.
      destruct (decide (k ∈ k :: ks)) as [|Hnin]; [done|].
      exfalso. apply Hnin. apply list_elem_of_here.
    + rewrite set_prop_lookup_ne by done. rewrite IH.
      destruct (decide (k ∈ ks)) as [Hin|Hnin],
               (decide (k ∈ k0 :: ks)) as [Hin'|Hnin']; try done.
      * exfalso. apply Hnin'. by apply list_elem_of_further.
      * apply elem_of_cons in Hin' as [->|?]; done.
Qed.

Lemma pick_ext ks (o1 o2 : gmap string json) :
  (∀ k, k ∈ ks → o1 !! k = o2 !! k) → pick ks o1 = pick ks o2.
Proof.
  intros Hks. apply map_eq. intros k. rewrite !pick_lookup.
  case_decide; [by apply Hks | done].
Qed.

Lemma spread_or_empty (v : option json) :
  spread (Some (or_empty v)) = spread v.
Proof.
  destruct v as [j|]; [|done].
  destruct j as [|b|n|s|l|o]; simpl; try done.
  - by destruct b.
  - by destruct (n =? 0)%Z.
  - by destruct s.
Qed.

(** ** [findIndex] *)

Lemma find_from_spec {A} (p : A → bool) (l : list A) (i j : nat) (x : A) :
  find_from p l i = Some (j, x) →
  ∃ n, j = i + n ∧ l !! n = Some x ∧ p x = true ∧
       ∀ m y, m < n → l !! m = Some y → p y = false.
Proof.
  revert i. induction l as [|a l IH]; intros i; simpl; [done|].
  destruct (p a) eqn:Hpa.
  - intros [= <- <-]. exists 0. repeat split; [lia | done | lia].
  - intros Hf. destruct (IH _ Hf) as (n & -> & Hn & Hpx & Hbefore).
    exists (S n). repeat split; [lia | done | done |].
    intros [|m] y Hm; simpl; [by intros [= <-] | apply Hbefore; lia].
Qed.

Lemma find_from_None {A} (p : A → bool) (l : list A) (i : nat) :
  find_from p l i = None ↔ ∀ x, x ∈ l → p x = false.
Proof.
  revert i. induction l as [|a l IH]; intros i; simpl.
  - split; [intros _ x Hx; by apply elem_of_nil in Hx | done].
  - destruct (p a) eqn:Hpa.
    + split; [done|]. intros H. specialize (H a (list_elem_of_here _ _)). congruence.
    + rewrite IH. split.
      * intros H x [->|Hx]%elem_of_cons; [done | by apply H].
      * intros H x Hx. apply H. by apply list_elem_of_further.
Qed.

Lemma findIndex_spec {A} (p : A → bool) (l : list A) (i : nat) (x : A) :
  findIndex p l = Some (i, x) →
  l !! i = Some x ∧ p x = true ∧ ∀ m y, m < i → l !! m = Some y → p y = false.
Proof.
  intros (n & -> & H)%find_from_spec. exact H.
Qed.

(** ** The data files *)

Lemma readJSON_write e f data (st : gmap string file) :
  disk_ok e = true →
  writeJSON e f data st = (true, <[f := Parsed data]> st).
Proof. unfold writeJSON. by intros ->. Qed.

Lemma readJSON_insert_eq f data (st : gmap string file) :
  readJSON (<[f := Parsed data]> st) f = data.
Proof. unfold readJSON. by rewrite lookup_insert_eq. Qed.

Lemma readJSON_insert_ne f g data (st : gmap string file) :
  f ≠ g → readJSON (<[f := Parsed data]> st) g = readJSON st g.
Proof. intros Hne. unfold readJSON. by rewrite lookup_insert_ne. Qed.

(** ** The handlers on one pet *)

Section PetHandlers.

Variable loose_eq : option json → string → bool.

Lemma matched_pet_None rq (st : gmap string file) :
  (∀ p, p ∈ readJSON st "animais.json" → loose_eq (p !! "id") (param rq) = false) →
  matched_pet loose_eq rq st = None.
Proof. intros H. unfold matched_pet, findIndex. by apply find_from_None. Qed.

(** A request whose id matches some stored pet selects one: the first
    that matches. *)
Lemma matched_pet_Some rq (st : gmap string file) p :
  p ∈ readJSON st "animais.json" → loose_eq (p !! "id") (param rq) = true →
  ∃ i pet, matched_pet loose_eq rq st = Some (i, pet).
Proof.
  intros Hin Hp.
  destruct (matched_pet loose_eq rq st) as [[i pet]|] eqn:Hm; [eauto|].
  unfold matched_pet, findIndex in Hm. rewrite find_from_None in Hm.
  rewrite (Hm p Hin) in Hp. done.
Qed.

Lemma put_pet_not_found change saved not_saved e rq (st : gmap string file) :
  matched_pet loose_eq rq st = None →
  put_pet loose_eq change saved not_saved e rq st = (failure "Pet não encontrado", st).
Proof. unfold matched_pet, put_pet. by intros ->. Qed.

Lemma put_pet_saved change saved not_saved e rq (st : gmap string file) i pet :
  matched_pet loose_eq rq st = Some (i, pet) → disk_ok e = true →
  put_pet loose_eq change saved not_saved e rq st =
    (success saved,
     <["animais.json" := Parsed (<[i := change pet]> (readJSON st "animais.json"))]> st).
Proof.
  unfold matched_pet, put_pet. intros -> Hok. by rewrite readJSON_write.
Qed.

Lemma put_pet_not_saved change saved not_saved e rq (st : gmap string file) i pet :
  matched_pet loose_eq rq st = Some (i, pet) → disk_ok e = false →
  put_pet loose_eq change saved not_saved e rq st = (failure not_saved, st).
Proof.
  unfold matched_pet, put_pet, writeJSON. by intros -> ->.
Qed.

(** Whatever the handler and whatever the disk does, the other files, the
    length of the collection and the pets other than the matched one stay
    as they were, and the matched pet is either as it was or changed. *)
Lemma put_pet_frame change saved not_saved e rq (st : gmap string file) i pet :
  matched_pet loose_eq rq st = Some (i, pet) →
  let st' := (put_pet loose_eq change saved not_saved e rq st).2 in
  (∀ f, f ≠ "animais.json" → st' !! f = st !! f) ∧
  length (readJSON st' "animais.json") = length (readJSON st "animais.json") ∧
  (∀ j, j ≠ i → readJSON st' "animais.json" !! j = readJSON st "animais.json" !! j) ∧
  (readJSON st' "animais.json" !! i = Some (if disk_ok e then change pet else pet)).
Proof.
  intros Hm. pose proof Hm as (Hi & _)%findIndex_spec.
  destruct (disk_ok e) eqn:Hok; simpl.
  - rewrite (put_pet_saved _ _ _ _ _ _ _ _ Hm Hok); simpl.
    rewrite readJSON_insert_eq. repeat split.
    + intros f Hf. by rewrite lookup_insert_ne.
    + by rewrite length_insert.
    + intros j Hj. by rewrite list_lookup_insert_ne.
    + apply list_lookup_insert_eq. by eapply lookup_lt_Some.
  - rewrite (put_pet_not_saved _ _ _ _ _ _ _ _ Hm Hok); simpl. done.
Qed.



End PetHandlers.

(** ** Registering a pet *)

Lemma novoPet_fixed_fields e (petData : gmap string json) :
  novoPet e petData !! "tag" = Some (JStr "green") ∧
  novoPet e petData !! "anamnese" = Some JNull ∧
  novoPet e petData !! "observacoes" = Some (JStr "").
Proof.
  unfold novoPet. repeat split.
  - do 3 (rewrite lookup_insert_ne; [|done]). by rewrite lookup_insert_eq.
  - do 2 (rewrite lookup_insert_ne; [|done]). by rewrite lookup_insert_eq.
  - rewrite lookup_insert_ne; [|done]. by rewrite lookup_insert_eq.
Qed.


(** When the write fails nothing is appended and the answer is
    success=false. *)
Lemma salvar_pet_not_saved e rq (st : gmap string file) :
  disk_ok e = false →
  post_salvar_pet e rq st = (failure "Erro ao salvar pet", st).
Proof. intros Hno. unfold post_salvar_pet, writeJSON. by rewrite Hno. Qed.

(** ** Reading a file that is not there *)

(** C10.  [readJSON] gives the empty array for a file that is missing or
    does not parse; the read endpoints then answer success=true with an
    empty list: GET /api/pets and GET /api/pets-tutor/:cpf for
    animais.json, GET /api/funcionarios for funcionarios.json. *)
Theorem unreadable_file_is_empty (st : gmap string file) f rq :
  unreadable st f →
  readJSON st f = [] ∧
  (f = "animais.json" →
     get_pets st = {[ "success" := JBool true; "pets" := JArr [] ]} ∧
     get_pets_tutor rq st = {[ "success" := JBool true; "pets" := JArr [] ]}) ∧
  (f = "funcionarios.json" →
     get_funcionarios st = {[ "success" := JBool true; "funcionarios" := JArr [] ]}).
Proof.
  intros Hun.
  assert (readJSON st f = []) as Hread.
  { unfold readJSON. by destruct Hun as [-> | ->]. }
  split; [done|]. split.
  - intros ->. unfold get_pets, get_pets_tutor. by rewrite Hread.
  - intros ->. unfold get_funcionarios. by rewrite Hread.
Qed.

(** ** Updating a funcionario *)

Lemma apply_update_keeps (updateData current : gmap string json) k :
  k = "id" ∨ k = "dataCadastro" →
  apply_update updateData current !! k = current !! k.
Proof.
  intros Hk. unfold apply_update. apply lookup_union_r.
  destruct Hk as [-> | ->].
  - rewrite lookup_delete_ne by done. apply lookup_delete_eq.
  - apply lookup_delete_eq.
Qed.

(** A role in the body that is taken over as it is: no rule rejected it
    and it is not stripped. *)
Lemma apply_update_role (updateData current : gmap string json) r :
  updateData !! "role" = Some r →
  apply_update updateData current !! "role" = Some r.
Proof.
  intros Hr. unfold apply_update. apply lookup_union_Some_l.
  do 2 (rewrite lookup_delete_ne; [|done]).
  unfold strip_crmv.
  repeat match goal with |- context [if ?b then _ else _] => destruct b end;
    by rewrite ?lookup_delete_ne.
Qed.

Section Funcionarios.

Variable loose_eq : option json → string → bool.

Lemma put_funcionario_not_found e rq (st : gmap string file) :
  matched_funcionario loose_eq rq st = None →
  put_funcionario loose_eq e rq st = (failure "Funcionário não encontrado", st).
Proof. unfold matched_funcionario, put_funcionario. by intros ->. Qed.

Lemma put_funcionario_rejected e rq (st : gmap string file) i current message :
  matched_funcionario loose_eq rq st = Some (i, current) →
  role_check (body rq) current = Some message →
  put_funcionario loose_eq e rq st = (failure message, st).
Proof. unfold matched_funcionario, put_funcionario. by intros -> ->. Qed.

Lemma put_funcionario_saved e rq (st : gmap string file) i current :
  matched_funcionario loose_eq rq st = Some (i, current) →
  role_check (body rq) current = None →
  disk_ok e = true →
  put_funcionario loose_eq e rq st =
    ({[ "success" := JBool true;
        "message" := JStr "Funcionário atualizado com sucesso";
        "funcionario" := JObj (delete "senha" (apply_update (body rq) current)) ]},
     <["funcionarios.json" :=
         Parsed (<[i := apply_update (body rq) current]>
                   (readJSON st "funcionarios.json"))]> st).
Proof.
  unfold matched_funcionario, put_funcionario. intros -> -> Hok.
  by rewrite readJSON_write.
Qed.

Lemma put_funcionario_not_saved e rq (st : gmap string file) i current :
  matched_funcionario loose_eq rq st = Some (i, current) →
  role_check (body rq) current = None →
  disk_ok e = false →
  put_funcionario loose_eq e rq st = (failure "Erro ao salvar funcionário", st).
Proof.
  unfold matched_funcionario, put_funcionario, writeJSON. by intros -> -> ->.
Qed.

(** The record at the matched index after the request: the one that was
    there, or the update of it. *)
Lemma put_funcionario_result e rq (st : gmap string file) i current :
  matched_funcionario loose_eq rq st = Some (i, current) →
  let after := readJSON (put_funcionario loose_eq e rq st).2 "funcionarios.json" in
  (∀ j, j ≠ i → after !! j = readJSON st "funcionarios.json" !! j) ∧
  (after !! i = Some current ∨ after !! i = Some (apply_update (body rq) current)).
Proof.
  intros Hm. pose proof Hm as (Hi & _)%findIndex_spec. cbn zeta.
  destruct (role_check (body rq) current) as [message|] eqn:Hcheck.
  { rewrite (put_funcionario_rejected _ _ _ _ _ _ Hm Hcheck). simpl. by split; [|left]. }
  destruct (disk_ok e) eqn:Hok.
  - rewrite (put_funcionario_saved _ _ _ _ _ Hm Hcheck Hok). simpl.
    rewrite readJSON_insert_eq. split.
    + intros j Hj. by rewrite list_lookup_insert_ne.
    + right. apply list_lookup_insert_eq. by eapply lookup_lt_Some.
  - rewrite (put_funcionario_not_saved _ _ _ _ _ Hm Hcheck Hok). simpl. by split; [|left].
Qed.


(** The rule table for a body whose [role] is truthy and differs from the
    stored one: the four kinds of change that are rejected leave the store
    as it was. *)
Lemma role_change_rejected e rq (st : gmap string file) i current :
  matched_funcionario loose_eq rq st = Some (i, current) →
  let from := current !! "role" in
  let to := body rq !! "role" in
  truthy to = true → strict_eq to from = false →
  is_role from "Medico vet" = true ∨
  is_role from "Recepção" = true ∨ is_role from "Internação" = true ∨
  (is_role from "Estagiario" = true ∧ is_role to "Vet junior" = false) ∨
  (is_role from "Vet junior" = true ∧ is_role to "Medico vet" = false) →
  ∃ message, put_funcionario loose_eq e rq st = (failure message, st).
Proof.
  intros Hm from to Htruthy Hdiff Hcase.
  assert (∃ message, role_check (body rq) current = Some message) as [message Hcheck].
  { unfold role_check. fold from to. rewrite Htruthy, Hdiff.
    cbn [negb andb]. unfold role_rule. rewrite Hdiff.
    destruct (is_role from "Medico vet") eqn:E1; [eauto|].
    destruct (is_role from "Recepção") eqn:E2; [cbn; eauto|].
    destruct (is_role from "Internação") eqn:E3; [cbn; eauto|].
    cbn [orb andb].
    destruct Hcase as [?|[?|[?|[[Hf Ht]|[Hf Ht]]]]]; try congruence.
    - rewrite Hf, Ht. cbn. eauto.
    - destruct (is_role from "Estagiario" && negb (is_role to "Vet junior"));
        [eauto|].
      rewrite Hf, Ht. cbn. eauto. }
  exists message. by eapply put_funcionario_rejected.
Qed.

(** Every other change to a truthy role is applied when the write goes
    through. *)
Lemma role_change_applied e rq (st : gmap string file) i current r :
  matched_funcionario loose_eq rq st = Some (i, current) →
  body rq !! "role" = Some r →
  role_check (body rq) current = None →
  disk_ok e = true →
  ∃ updated,
    readJSON (put_funcionario loose_eq e rq st).2 "funcionarios.json" !! i = Some updated ∧
    updated !! "role" = Some r.
Proof.
  intros Hm Hr Hcheck Hok. pose proof Hm as (Hi & _)%findIndex_spec.
  rewrite (put_funcionario_saved _ _ _ _ _ Hm Hcheck Hok). simpl.
  rewrite readJSON_insert_eq. eexists. split.
  - apply list_lookup_insert_eq. by eapply lookup_lt_Some.
  - by apply apply_update_role.
Qed.

End Funcionarios.

(** C2.  PUT /api/funcionarios/10 with body [{"role": ""}] on a store
    where funcionario 10 has role 'Medico vet': the request is answered
    with success=true and the stored role becomes the empty string.  The
    guard [updateData.role && ...] takes the empty role as no role, so the
    rule 'Medico vet cannot be altered' is never consulted. *)
Theorem medico_vet_role_is_blanked :
  let rq := Sample.req (Some "funcionario") "10" {[ "role" := JStr "" ]} in
  let before := readJSON Sample.disk "funcionarios.json" in
  let result := put_funcionario loose_eq_id Sample.clock rq Sample.disk in
  let after := readJSON result.2 "funcionarios.json" in
  (before !! 0) ≫= (.!! "role") = Some (JStr "Medico vet") ∧
  result.1 !! "success" = Some (JBool true) ∧
  (after !! 0) ≫= (.!! "role") = Some (JStr "") ∧
  (after !! 0) ≫= (.!! "id") = Some (JNum 10).
Proof. vm_compute. done. Qed.

(** ** Who may append a sub-record *)


Section Append.

Variable loose_eq : option json → string → bool.


End Append.

(** ** Saving vaccination and exam data *)

Lemma merge_change_spec k stamp e (data pet : gmap string json) :
  ∃ ex, merge_change k stamp e data pet !! k = Some (JObj ex) ∧
        merge_with_stamp stamp (locale_string e) (spread (pet !! k)) data ex ∧
        ∀ k', k' ≠ k → merge_change k stamp e data pet !! k' = pet !! k'.
Proof.
  unfold merge_change. eexists. split; [apply lookup_insert_eq|].
  rewrite spread_or_empty. split; [repeat split|].
  - intros k' Hk' Hnone. rewrite lookup_insert_ne by done.
    by apply lookup_union_r.
  - intros k' v Hk' Hsome. rewrite lookup_insert_ne by done.
    by apply lookup_union_Some_l.
  - apply lookup_insert_eq.
  - intros k' Hk'. by rewrite lookup_insert_ne.
Qed.


Section Merge.

Variable loose_eq : option json → string → bool.

Lemma put_merge_spec k stamp saved not_saved e rq (st : gmap string file) i pet :
  matched_pet loose_eq rq st = Some (i, pet) →
  disk_ok e = true →
  let result :=
    put_pet loose_eq (merge_change k stamp e (body rq)) saved not_saved e rq st in
  result.1 = success saved ∧
  ∃ pet' ex,
    readJSON result.2 "animais.json" !! i = Some pet' ∧
    pet' !! k = Some (JObj ex) ∧
    merge_with_stamp stamp (locale_string e) (spread (pet !! k)) (body rq) ex ∧
    ∀ k', k' ≠ k → pet' !! k' = pet !! k'.
Proof.
  intros Hm Hok. pose proof Hm as (Hi & _)%findIndex_spec. cbn zeta.
  rewrite (put_pet_saved _ _ _ _ _ _ _ _ _ Hm Hok). simpl.
  split; [done|].
  destruct (merge_change_spec k stamp e (body rq) pet) as (ex & Hex & Hmerge & Hrest).
  exists (merge_change k stamp e (body rq) pet), ex.
  rewrite readJSON_insert_eq. split; [|done].
  apply list_lookup_insert_eq. by eapply lookup_lt_Some.
Qed.


End Merge.

(** ** Logging in *)

Lemma strict_eq_sym (a b : option json) : strict_eq a b = strict_eq b a.
Proof.
  destruct a as [[]|], b as [[]|]; simpl; try done.
  - by destruct b, b0.
  - apply Z.eqb_sym.
  - apply String.eqb_sym.
Qed.

Lemma strict_eq_same (a b c : option json) :
  strict_eq a c = true → strict_eq b c = true → strict_eq a b = true.
Proof.
  destruct a as [[]|], b as [[]|], c as [[]|]; simpl; try done.
  - intros ->%Bool.eqb_prop ->%Bool.eqb_prop. apply Bool.eqb_reflx.
  - intros ->%Z.eqb_eq ->%Z.eqb_eq. apply Z.eqb_refl.
  - intros ->%String.eqb_eq ->%String.eqb_eq. apply String.eqb_refl.
Qed.

Lemma by_login_Some login (l : list (gmap string json)) r :
  by_login login l = Some r → r ∈ l ∧ strict_eq (r !! "login") login = true.
Proof.
  unfold by_login, find.
  destruct (findIndex _ l) as [[i x]|] eqn:Hf; simpl; [|done].
  intros [= ->]. apply findIndex_spec in Hf as (Hi & Hp & _).
  split; [by eapply list_elem_of_lookup_2 | done].
Qed.

Lemma by_login_None login (l : list (gmap string json)) r :
  by_login login l = None → r ∈ l → strict_eq (r !! "login") login = false.
Proof.
  unfold by_login, find, findIndex.
  destruct (find_from _ l 0) as [[i x]|] eqn:Hf; simpl; [done|].
  intros _ Hr. rewrite find_from_None in Hf. by apply Hf.
Qed.

(** With distinct logins, the record that [find] returns is the only one
    with the supplied login. *)
Lemma by_login_unique login (l : list (gmap string json)) r r' :
  distinct_logins l →
  by_login login l = Some r →
  r' ∈ l → strict_eq (r' !! "login") login = true → r' = r.
Proof.
  intros Hdistinct Hfind [j Hj]%list_elem_of_lookup_1 Hlogin.
  unfold by_login, find in Hfind.
  destruct (findIndex _ l) as [[i x]|] eqn:Hf; simpl in Hfind; [|done].
  injection Hfind as ->. apply findIndex_spec in Hf as (Hi & Hp & _).
  assert (j = i) as -> by (eapply Hdistinct; eauto using strict_eq_same).
  congruence.
Qed.

Lemma credentials_checked login senha (l : list (gmap string json)) :
  distinct_logins l →
  has_credentials login senha l ↔
  ∃ r, by_login login l = Some r ∧ strict_eq senha (r !! "senha") = true.
Proof.
  intros Hdistinct. split.
  - intros (r' & Hin & Hlogin & Hsenha).
    destruct (by_login login l) as [r|] eqn:Hfind.
    + exists r. split; [done|].
      by rewrite <- (by_login_unique _ _ _ _ Hdistinct Hfind Hin Hlogin).
    + rewrite (by_login_None _ _ _ Hfind Hin) in Hlogin. done.
  - intros (r & Hfind & Hsenha).
    apply by_login_Some in Hfind as [Hin Hlogin]. by exists r.
Qed.

(** Each of the three searches answers exactly when its collection has the
    credentials, with success=true and its own tipo. *)
Lemma login_medico_spec login senha (st : gmap string file) :
  distinct_logins (readJSON st "medicos.json") →
  match login_medico login senha st with
  | Some resp => has_credentials login senha (readJSON st "medicos.json") ∧
                 succeeded resp ∧ tipo_of resp = Some (JStr "medico")
  | None => ¬ has_credentials login senha (readJSON st "medicos.json")
  end.
Proof.
  intros Hdistinct.
  pose proof (credentials_checked login senha _ Hdistinct) as Hcred.
  unfold login_medico. fold (by_login login (readJSON st "medicos.json")).
  destruct (by_login _ _) as [r|];
    [|rewrite Hcred; by intros (? & ? & _)].
  destruct (strict_eq senha (r !! "senha")) eqn:Hsenha;
    [|rewrite Hcred; intros (r' & [= <-] & Hs); congruence].
  split; [apply Hcred; eauto|]. split; [done|].
  unfold tipo_of. rewrite lookup_insert_ne by done. rewrite lookup_singleton_eq.
  simpl. rewrite lookup_delete_ne by done. apply lookup_insert_eq.
Qed.

Lemma login_tutor_spec login senha (st : gmap string file) :
  distinct_logins (readJSON st "usuarios.json") →
  match login_tutor login senha st with
  | Some resp => has_credentials login senha (readJSON st "usuarios.json") ∧
                 succeeded resp ∧ tipo_of resp = Some (JStr "tutor")
  | None => ¬ has_credentials login senha (readJSON st "usuarios.json")
  end.
Proof.
  intros Hdistinct.
  pose proof (credentials_checked login senha _ Hdistinct) as Hcred.
  unfold login_tutor. fold (by_login login (readJSON st "usuarios.json")).
  destruct (by_login _ _) as [r|];
    [|rewrite Hcred; by intros (? & ? & _)].
  destruct (strict_eq senha (r !! "senha")) eqn:Hsenha;
    [|rewrite Hcred; intros (r' & [= <-] & Hs); congruence].
  split; [apply Hcred; eauto|]. split; [done|].
  unfold tipo_of. rewrite lookup_insert_ne by done. rewrite lookup_singleton_eq.
  simpl. rewrite lookup_delete_ne by done. apply lookup_insert_eq.
Qed.

Lemma login_funcionario_spec login senha (st : gmap string file) :
  distinct_logins (readJSON st "funcionarios.json") →
  match login_funcionario login senha st with
  | Some resp => has_credentials login senha (readJSON st "funcionarios.json") ∧
                 succeeded resp ∧ tipo_of resp = Some (JStr "funcionario")
  | None => ¬ has_credentials login senha (readJSON st "funcionarios.json")
  end.
Proof.
  intros Hdistinct.
  pose proof (credentials_checked login senha _ Hdistinct) as Hcred.
  unfold login_funcionario. fold (by_login login (readJSON st "funcionarios.json")).
  destruct (by_login _ _) as [r|];
    [|rewrite Hcred; by intros (? & ? & _)].
  destruct (strict_eq senha (r !! "senha")) eqn:Hsenha;
    [|rewrite Hcred; intros (r' & [= <-] & Hs); congruence].
  split; [apply Hcred; eauto|]. split; [done|].
  unfold tipo_of. rewrite lookup_insert_ne by done. rewrite lookup_singleton_eq.
  apply lookup_insert_eq.
Qed.

Lemma failure_not_succeeded message : ¬ succeeded (failure message).
Proof.
  unfold succeeded, failure. rewrite lookup_insert_eq. by intros [= ?].
Qed.

Lemma failure_success_false message :
  failure message !! "success" = Some (JBool false).
Proof. apply lookup_insert_eq. Qed.

Lemma post_login_falsy rq (st : gmap string file) :
  truthy (body rq !! "login") = false ∨ truthy (body rq !! "senha") = false →
  post_login rq st = failure "Login e senha são obrigatórios!".
Proof.
  unfold post_login. intros [-> | ->]; [done|].
  by rewrite orb_true_r.
Qed.

Lemma sample_logins_distinct :
  distinct_logins (readJSON Sample.disk "medicos.json") ∧
  distinct_logins (readJSON Sample.disk "usuarios.json") ∧
  distinct_logins (readJSON Sample.disk "funcionarios.json").
Proof.
  repeat split; intros i j r1 r2;
    change (readJSON Sample.disk "medicos.json") with [Sample.dra_ana];
    change (readJSON Sample.disk "usuarios.json") with [Sample.tutor_bia];
    change (readJSON Sample.disk "funcionarios.json") with [Sample.carlos; Sample.duda];
    destruct i as [|[|i]], j as [|[|j]]; simpl; try done;
    intros [= <-] [= <-]; by vm_compute.
Qed.

(** C1, as stated, fails: Duda's stored senha is the empty string (PUT
    /api/funcionarios/:id stores any senha it is given); a login as duda
    with the empty senha supplies exactly the stored credentials and is
    answered success=false, because an empty senha is refused before any
    file is read. *)
Lemma login_with_stored_empty_senha_fails :
  ¬ login_as_stated
      (Sample.req None "" {[ "login" := JStr "duda"; "senha" := JStr "" ]})
      Sample.disk.
Proof.
  intros Hclaim.
  destruct sample_logins_distinct as (Hm & Hu & Hf).
  apply (failure_not_succeeded "Login e senha são obrigatórios!").
  rewrite <- (post_login_falsy
    (Sample.req None "" {[ "login" := JStr "duda"; "senha" := JStr "" ]})
    Sample.disk) by (right; by vm_compute).
  apply (Hclaim Hm Hu Hf). right; right.
  exists Sample.duda. split; [|by vm_compute].
  change (readJSON Sample.disk "funcionarios.json") with [Sample.carlos; Sample.duda].
  apply list_elem_of_further, list_elem_of_here.
Qed.

(** C1, amended.  With distinct logins in each collection, POST /api/login
    succeeds exactly when the supplied login and senha are both truthy
    (present and not empty) and medicos.json, usuarios.json or
    funcionarios.json has a record with that login whose senha is the
    supplied one.  On success the tipo of the returned user is 'medico',
    'tutor' or 'funcionario' for the first of the three collections, in
    that order, that has the credentials; otherwise the response is
    success=false. *)
Theorem login_succeeds_iff_credentials rq (st : gmap string file) :
  let login := body rq !! "login" in
  let senha := body rq !! "senha" in
  let medicos := readJSON st "medicos.json" in
  let usuarios := readJSON st "usuarios.json" in
  let funcionarios := readJSON st "funcionarios.json" in
  let resp := post_login rq st in
  distinct_logins medicos → distinct_logins usuarios → distinct_logins funcionarios →
  (succeeded resp ↔
     truthy login = true ∧ truthy senha = true ∧
     (has_credentials login senha medicos ∨ has_credentials login senha usuarios ∨
      has_credentials login senha funcionarios)) ∧
  (succeeded resp → has_credentials login senha medicos →
     tipo_of resp = Some (JStr "medico")) ∧
  (succeeded resp → ¬ has_credentials login senha medicos →
     has_credentials login senha usuarios → tipo_of resp = Some (JStr "tutor")) ∧
  (succeeded resp → ¬ has_credentials login senha medicos →
     ¬ has_credentials login senha usuarios → tipo_of resp = Some (JStr "funcionario")) ∧
  (¬ succeeded resp → resp !! "success" = Some (JBool false)).
Proof.
  intros login senha medicos usuarios funcionarios resp Hdm Hdu Hdf.
  pose proof (failure_not_succeeded "Login e senha são obrigatórios!") as Hno1.
  pose proof (failure_not_succeeded "Usuário ou senha incorretos!") as Hno2.
  destruct (truthy login) eqn:Hlogin; cycle 1.
  { subst resp. rewrite post_login_falsy by (by left).
    repeat split; intros; try apply failure_success_false; intuition (auto; congruence). }
  destruct (truthy senha) eqn:Hsenha; cycle 1.
  { subst resp. rewrite post_login_falsy by (by right).
    repeat split; intros; try apply failure_success_false; intuition (auto; congruence). }
  subst resp. unfold post_login. fold login senha. rewrite Hlogin, Hsenha.
  cbn [negb orb].
  pose proof (login_medico_spec login senha st Hdm) as Hm.
  destruct (login_medico login senha st) as [r|].
  { destruct Hm as (Hc & Hs & Ht). fold medicos in Hc. intuition (auto; congruence). }
  pose proof (login_tutor_spec login senha st Hdu) as Hu.
  destruct (login_tutor login senha st) as [r|].
  { destruct Hu as (Hc & Hs & Ht). fold usuarios in Hc. fold medicos in Hm.
    intuition (auto; congruence). }
  pose proof (login_funcionario_spec login senha st Hdf) as Hf.
  destruct (login_funcionario login senha st) as [r|].
  { destruct Hf as (Hc & Hs & Ht). fold funcionarios in Hc.
    fold medicos in Hm. fold usuarios in Hu. intuition (auto; congruence). }
  fold medicos in Hm. fold usuarios in Hu. fold funcionarios in Hf.
  repeat split; intros; try apply failure_success_false; intuition (auto; congruence).
Qed.

(** ** Stored passwords and responses *)

Lemma same_but_senha_lookup (r1 r2 : gmap string json) k :
  same_but_senha r1 r2 → k ≠ "senha" → r1 !! k = r2 !! k.
Proof.
  intros Hsame Hk.
  rewrite <- (lookup_delete_ne r1 "senha" k), <- (lookup_delete_ne r2 "senha" k) by done.
  by rewrite Hsame.
Qed.

Lemma Forall2_both {A} (R S : A → A → Prop) (l1 l2 : list A) :
  Forall2 R l1 l2 → Forall2 S l1 l2 → Forall2 (λ x y, R x y ∧ S x y) l1 l2.
Proof.
  intros HR. induction HR as [|x y l1 l2 Hxy HR IH]; intros HS.
  - constructor.
  - apply Forall2_cons_1 in HS as [Hs HS]. constructor; auto.
Qed.

Lemma find_from_related {A} (R : A → A → Prop) (p q : A → bool) (l1 l2 : list A) i :
  Forall2 R l1 l2 →
  (∀ x y, R x y → p x = q y) →
  match find_from p l1 i, find_from q l2 i with
  | Some (j1, x), Some (j2, y) => j1 = j2 ∧ R x y
  | None, None => True
  | _, _ => False
  end.
Proof.
  intros Hall Hpq. revert i.
  induction Hall as [|x y l1 l2 Hxy Hall IH]; intros i; simpl; [done|].
  rewrite <- (Hpq x y Hxy). destruct (p x); [done | apply IH].
Qed.

Lemma by_login_related (R : gmap string json → gmap string json → Prop) login
    (l1 l2 : list (gmap string json)) :
  Forall2 R l1 l2 →
  (∀ x y, R x y → x !! "login" = y !! "login") →
  match by_login login l1, by_login login l2 with
  | Some x, Some y => R x y ∧ strict_eq (x !! "login") login = true
  | None, None => True
  | _, _ => False
  end.
Proof.
  intros Hall Hlogin. unfold by_login, find, findIndex.
  pose proof (find_from_related R
    (λ r, strict_eq (r !! "login") login) (λ r, strict_eq (r !! "login") login)
    l1 l2 0 Hall) as Hrel.
  pose proof (find_from_spec (λ r : gmap string json, strict_eq (r !! "login") login) l1 0) as Hspec.
  destruct (find_from _ l1 0) as [[j1 x]|], (find_from _ l2 0) as [[j2 y]|]; simpl;
    try (apply Hrel; intros ?? ->%Hlogin; done).
  split.
  - apply Hrel. by intros ?? ->%Hlogin.
  - by destruct (Hspec _ _ eq_refl) as (? & _ & _ & ? & _).
Qed.

(** A successful search returns a user without [senha]. *)
Lemma login_user_has_no_senha login senha (st : gmap string file) resp :
  login_medico login senha st = Some resp ∨
  login_tutor login senha st = Some resp ∨
  login_funcionario login senha st = Some resp →
  ∃ user, resp !! "user" = Some (JObj user) ∧ user !! "senha" = None.
Proof.
  unfold login_medico, login_tutor, login_funcionario.
  intros [H | [H | H]];
    destruct (find _ _) as [r|]; try done;
    destruct (strict_eq senha _); try done;
    injection H as <-; eexists;
    (split; [rewrite lookup_insert_ne by done; apply lookup_singleton_eq|]).
  - apply lookup_delete_eq.
  - apply lookup_delete_eq.
  - rewrite lookup_insert_ne by done.
    rewrite !set_prop_lookup_ne by done. apply lookup_empty.
Qed.

Lemma safe_funcionario_lookup (f : gmap string json) k :
  safe_funcionario f !! k =
    if decide (k ∈ ["id"; "nome"; "login"; "contato"; "role"; "crmv"])
    then f !! k else None.
Proof. apply pick_lookup. Qed.

Lemma safe_funcionario_same (f1 f2 : gmap string json) :
  same_but_senha f1 f2 → safe_funcionario f1 = safe_funcionario f2.
Proof.
  intros Hsame. apply pick_ext. intros k Hin.
  apply same_but_senha_lookup; [done|]. intros ->.
  repeat (apply elem_of_cons in Hin as [Hin|Hin]; [done|]).
  by apply elem_of_nil in Hin.
Qed.

Section LoginVariant.

Variables (rq : request) (st1 st2 : gmap string file).
Hypothesis Hvariant : senha_variant st1 st2.
Hypothesis Hchecks : same_checks rq st1 st2.

Local Abbreviation login := (body rq !! "login").
Local Abbreviation senha := (body rq !! "senha").

Lemma consulted_record f :
  match by_login login (readJSON st1 f), by_login login (readJSON st2 f) with
  | Some r1, Some r2 =>
      same_but_senha r1 r2 ∧
      strict_eq senha (r1 !! "senha") = strict_eq senha (r2 !! "senha")
  | None, None => True
  | _, _ => False
  end.
Proof.
  pose proof (by_login_related _ login _ _
    (Forall2_both _ _ _ _ (Hvariant f) (Hchecks f))) as Hrel.
  destruct (by_login login (readJSON st1 f)), (by_login login (readJSON st2 f));
    try (apply Hrel; intros ?? [? _]; by apply same_but_senha_lookup).
  destruct Hrel as [[Hsame Hcheck] Hlogin].
  - intros ?? [? _]. by apply same_but_senha_lookup.
  - split; [done | by apply Hcheck].
Qed.

Lemma login_medico_variant : login_medico login senha st1 = login_medico login senha st2.
Proof.
  pose proof (consulted_record "medicos.json") as Hrel.
  unfold login_medico. fold (by_login login (readJSON st1 "medicos.json")).
  fold (by_login login (readJSON st2 "medicos.json")).
  destruct (by_login login (readJSON st1 _)) as [r1|],
           (by_login login (readJSON st2 _)) as [r2|]; try done.
  destruct Hrel as [Hsame <-]. destruct (strict_eq senha (r1 !! "senha")); [|done].
  do 3 f_equal. simpl. rewrite !delete_insert_ne by done. by rewrite Hsame.
Qed.

Lemma login_tutor_variant : login_tutor login senha st1 = login_tutor login senha st2.
Proof.
  pose proof (consulted_record "usuarios.json") as Hrel.
  unfold login_tutor. fold (by_login login (readJSON st1 "usuarios.json")).
  fold (by_login login (readJSON st2 "usuarios.json")).
  destruct (by_login login (readJSON st1 _)) as [r1|],
           (by_login login (readJSON st2 _)) as [r2|]; try done.
  destruct Hrel as [Hsame <-]. destruct (strict_eq senha (r1 !! "senha")); [|done].
  do 3 f_equal. simpl. rewrite !delete_insert_ne by done. by rewrite Hsame.
Qed.

Lemma login_funcionario_variant :
  login_funcionario login senha st1 = login_funcionario login senha st2.
Proof.
  pose proof (consulted_record "funcionarios.json") as Hrel.
  unfold login_funcionario. fold (by_login login (readJSON st1 "funcionarios.json")).
  fold (by_login login (readJSON st2 "funcionarios.json")).
  destruct (by_login login (readJSON st1 _)) as [r1|],
           (by_login login (readJSON st2 _)) as [r2|]; try done.
  destruct Hrel as [Hsame <-]. destruct (strict_eq senha (r1 !! "senha")); [|done].
  rewrite (pick_ext _ r1 r2); [done|]. intros k Hin.
  apply same_but_senha_lookup; [done|]. intros ->.
  repeat (apply elem_of_cons in Hin as [Hin|Hin]; [done|]).
  by apply elem_of_nil in Hin.
Qed.

Lemma post_login_variant : post_login rq st1 = post_login rq st2.
Proof.
  unfold post_login.
  by rewrite login_medico_variant, login_tutor_variant, login_funcionario_variant.
Qed.

End LoginVariant.

Lemma get_funcionarios_variant (st1 st2 : gmap string file) :
  senha_variant st1 st2 → get_funcionarios st1 = get_funcionarios st2.
Proof.
  intros Hvariant. unfold get_funcionarios. do 3 f_equal.
  induction (Hvariant "funcionarios.json") as [|f1 f2 l1 l2 Hsame _ IH]; [done|].
  cbn [fmap list_fmap]. f_equal; [|exact IH].
  f_equal. by apply safe_funcionario_same.
Qed.

Lemma post_login_user_has_no_senha rq (st : gmap string file) :
  succeeded (post_login rq st) →
  ∃ user, post_login rq st !! "user" = Some (JObj user) ∧ user !! "senha" = None.
Proof.
  unfold post_login.
  destruct (negb _ || negb _); [by intros ?%failure_not_succeeded|].
  destruct (login_medico _ _ st) as [r|] eqn:Hm;
    [intros _; eapply login_user_has_no_senha; eauto|].
  destruct (login_tutor _ _ st) as [r|] eqn:Ht;
    [intros _; eapply login_user_has_no_senha; eauto|].
  destruct (login_funcionario _ _ st) as [r|] eqn:Hf;
    [intros _; eapply login_user_has_no_senha; eauto|].
  by intros ?%failure_not_succeeded.
Qed.


(** ** The statements at the sample data *)




Lemma unreadable_file_is_empty_witness :
  unreadable (∅ : gmap string file) "animais.json" ∧
  get_pets ∅ = {[ "success" := JBool true; "pets" := JArr [] ]}.
Proof.
  assert (unreadable (∅ : gmap string file) "animais.json") as Hun
    by (left; reflexivity).
  split; [exact Hun|].
  destruct (unreadable_file_is_empty ∅ "animais.json"
              (Sample.req None "" ∅) Hun) as (_ & Hpets & _).
  exact (proj1 (Hpets eq_refl)).
Defined.




Lemma login_succeeds_iff_credentials_witness :
  let rq := Sample.req None "" {[ "login" := JStr "carlos"; "senha" := JStr "segredo3" ]} in
  (distinct_logins (readJSON Sample.disk "medicos.json") ∧
   distinct_logins (readJSON Sample.disk "usuarios.json") ∧
   distinct_logins (readJSON Sample.disk "funcionarios.json")) ∧
  succeeded (post_login rq Sample.disk) ∧
  tipo_of (post_login rq Sample.disk) = Some (JStr "funcionario").
Proof.
  intros rq. split; [exact sample_logins_distinct|].
  destruct sample_logins_distinct as (Hm & Hu & Hf).
  destruct (login_succeeds_iff_credentials rq Sample.disk Hm Hu Hf)
    as (Hiff & _ & _ & Hfunc & _).
  assert (succeeded (post_login rq Sample.disk)) as Hok.
  { apply Hiff. split; [reflexivity|]. split; [reflexivity|]. right; right.
    exists Sample.carlos. split; [|split; vm_compute; reflexivity].
    change (readJSON Sample.disk "funcionarios.json") with [Sample.carlos; Sample.duda].
    apply list_elem_of_here. }
  split; [exact Hok|].
  apply Hfunc; [exact Hok | |].
  - intros (r & Hin & Hlogin & _).
    change (readJSON Sample.disk "medicos.json") with [Sample.dra_ana] in Hin.
    apply list_elem_of_singleton in Hin as ->. vm_compute in Hlogin. discriminate Hlogin.
  - intros (r & Hin & Hlogin & _).
    change (readJSON Sample.disk "usuarios.json") with [Sample.tutor_bia] in Hin.
    apply list_elem_of_singleton in Hin as ->. vm_compute in Hlogin. discriminate Hlogin.
Defined.


(** ** Runs of the handlers on the sample data *)

(** Ana logs in as a veterinarian; the user that is returned has no
    senha. *)
Example ana_logs_in :
  let resp := post_login
    (Sample.req None "" {[ "login" := JStr "ana"; "senha" := JStr "segredo1" ]})
    Sample.disk in
  resp !! "success" = Some (JBool true) ∧
  tipo_of resp = Some (JStr "medico") ∧
  resp !! "user" = Some (JObj (<["tipo" := JStr "medico"]> (delete "senha" Sample.dra_ana))).
Proof. vm_compute. done. Qed.

(** A wrong senha is answered like an unknown login. *)
Example ana_wrong_senha :
  post_login
    (Sample.req None "" {[ "login" := JStr "ana"; "senha" := JStr "errada" ]})
    Sample.disk
  = failure "Usuário ou senha incorretos!".
Proof. vm_compute. done. Qed.

(** PUT /api/funcionarios/:id stores the senha it is given, also the empty
    one: this is how Duda's empty senha can come to be stored. *)
Example empty_senha_can_be_stored :
  let before : gmap string file :=
    {[ "funcionarios.json" := Parsed [<["senha" := JStr "segredo4"]> Sample.duda] ]} in
  let rq := Sample.req (Some "funcionario") "11" {[ "senha" := JStr "" ]} in
  readJSON (put_funcionario loose_eq_id Sample.clock rq before).2 "funcionarios.json"
  = [Sample.duda].
Proof. vm_compute. done. Qed.

(** When the disk refuses the write, the tag change is answered with
    success=false and the store is as it was. *)
Example tag_change_on_full_disk :
  put_alterar_tag loose_eq_id Sample.full_disk
    (Sample.req (Some "medico") "1" {[ "tag" := JStr "red" ]}) Sample.disk
  = (failure "Erro ao alterar tag", Sample.disk).
Proof. vm_compute. done. Qed.

(** A promotion that the rules allow: Estagiario to Vet junior. *)
Example duda_is_promoted :
  let rq := Sample.req (Some "funcionario") "11" {[ "role" := JStr "Vet junior" ]} in
  (readJSON (put_funcionario loose_eq_id Sample.clock rq Sample.disk).2
     "funcionarios.json" !! 1) ≫= (.!! "role") = Some (JStr "Vet junior").
Proof. vm_compute. done. Qed.

(** One that they do not: Estagiario to Medico vet. *)
Example duda_is_not_made_medico :
  let rq := Sample.req (Some "funcionario") "11" {[ "role" := JStr "Medico vet" ]} in
  put_funcionario loose_eq_id Sample.clock rq Sample.disk
  = (failure "Estagiário só pode mudar para Vet junior.", Sample.disk).
Proof. vm_compute. done. Qed.

(** * Properties of the rest of the file *)

(** ** The validators *)

Lemma digits_only_spec min max s :
  digits_only min max s = true ↔
  (min ≤ String.length s ≤ max) ∧ all_digits s.
Proof.
  unfold all_digits. revert min max.
  induction s as [|c s IH]; intros min max; simpl.
  - destruct min; simpl.
    + split; [intros _; split; [lia | apply Forall_nil_2] | done].
    + split; [done | lia].
  - destruct max as [|max].
    + split; [done | lia].
    + rewrite andb_true_iff, IH, Forall_cons. split.
      * intros (Hc & Hlen & Hall). split; [lia | done].
      * intros (Hlen & Hc & Hall). split; [done|]. split; [lia | done].
Qed.

Lemma all_digits_js_length s : all_digits s → js_length s = String.length s.
Proof.
  unfold all_digits. induction s as [|c s IH]; simpl; [done|].
  intros [Hc Hall]%Forall_cons. rewrite (IH Hall). f_equal.
  unfold is_digit, digit in Hc. unfold code_units.
  destruct (nat_of_ascii c <? 128)%nat eqn:Hlt; [done|].
  apply Nat.ltb_ge in Hlt.
  destruct ((48 <=? Z.of_nat (nat_of_ascii c)) && (Z.of_nat (nat_of_ascii c) <=? 57))%Z
    eqn:Hd; [|done].
  apply andb_true_iff in Hd as [_ Hd%Z.leb_le]. lia.
Qed.

(** X1.  [validateCPF] accepts exactly the strings of 11 decimal digits
    and [validatePhone] exactly those of 10 or 11; the empty string is
    refused by both, every valid CPF is also a valid phone number, and on
    an accepted string [.length] is the number of digits. *)
Theorem validators_accept_digit_strings s :
  (validateCPF s = true ↔ String.length s = 11 ∧ all_digits s) ∧
  (validatePhone s = true ↔ (String.length s = 10 ∨ String.length s = 11) ∧ all_digits s) ∧
  (validateCPF s = true → validatePhone s = true) ∧
  (validatePhone s = true → js_length s = String.length s) ∧
  validateCPF "" = false ∧ validatePhone "" = false.
Proof.
  unfold validateCPF, validatePhone. rewrite !digits_only_spec.
  repeat split; try (intros; intuition lia).
  - intros [_ Hall]. by apply all_digits_js_length.
Qed.

(** ** Collections that grow by one record *)

Lemma find_miss {A} (p : A → bool) (l : list A) :
  find p l = None ↔ ∀ x, x ∈ l → p x = false.
Proof.
  unfold find, findIndex. rewrite <- (find_from_None p l 0).
  by destruct (find_from p l 0) as [[]|].
Qed.

Lemma find_from_snoc {A} (p : A → bool) (l : list A) (r : A) i :
  (∀ x, x ∈ l → p x = false) → p r = true →
  find_from p (l ++ [r]) i = Some (i + length l, r).
Proof.
  revert i. induction l as [|a l IH]; intros i Hmiss Hr; simpl.
  - rewrite Hr. do 2 f_equal. lia.
  - rewrite (Hmiss a) by apply list_elem_of_here.
    rewrite IH; [do 2 f_equal; lia | | done].
    intros x Hx. by apply Hmiss, list_elem_of_further.
Qed.

Lemma find_snoc {A} (p : A → bool) (l : list A) (r : A) :
  (∀ x, x ∈ l → p x = false) → p r = true → find p (l ++ [r]) = Some r.
Proof.
  intros Hmiss Hr. unfold find, findIndex.
  by rewrite (find_from_snoc p l r 0 Hmiss Hr).
Qed.

Lemma distinct_field_snoc k (l : list (gmap string json)) r :
  distinct_field k l →
  (∀ x, x ∈ l → strict_eq (x !! k) (r !! k) = false) →
  distinct_field k (l ++ [r]).
Proof.
  intros Hdistinct Hnew i j r1 r2 Hi Hj Heq.
  apply lookup_snoc_Some in Hi as [[Hi1 Hi2] | [-> ->]],
        Hj as [[Hj1 Hj2] | [-> ->]]; [by eapply Hdistinct | | | done].
  - rewrite (Hnew r1) in Heq; [done | by eapply list_elem_of_lookup_2].
  - rewrite strict_eq_sym, (Hnew r2) in Heq; [done | by eapply list_elem_of_lookup_2].
Qed.

Lemma distinct_logins_field (l : list (gmap string json)) :
  distinct_logins l ↔ distinct_field "login" l.
Proof. done. Qed.

(** When every record has its CPF as its login, distinct CPFs are distinct
    logins. *)
Lemma distinct_cpf_logins (l : list (gmap string json)) :
  Forall (λ r, r !! "login" = r !! "cpf") l →
  distinct_field "cpf" l → distinct_logins l.
Proof.
  intros Hall Hdistinct i j r1 r2 Hi Hj Heq.
  rewrite Forall_lookup in Hall.
  rewrite (Hall _ _ Hi), (Hall _ _ Hj) in Heq. by eapply Hdistinct.
Qed.

(** ** Registering a tutor *)

Section Tutor.

Variable to_string : json → string.
Variable string_lt : string → Z → bool.

(** The outcome of a registration: nothing is written and the answer is
    not a success, or every check passed, the write went through and the
    collection has the new record at its end. *)
Lemma cadastrar_tutor_outcome e rq (st : gmap string file) :
  let result := post_cadastrar_tutor to_string string_lt e rq st in
  let usuarios := readJSON st "usuarios.json" in
  let novo := novoTutor e (body rq !! "nome") (body rq !! "cpf")
                (body rq !! "telefone") (body rq !! "endereco") (body rq !! "senha") in
  (¬ succeeded result.1 ∧ result.2 = st) ∨
  (result = (success "Cadastro realizado com sucesso!",
             <["usuarios.json" := Parsed (usuarios ++ [novo])]> st) ∧
   tutor_ok to_string string_lt novo ∧
   novo !! "cpf" = body rq !! "cpf" ∧ novo !! "senha" = body rq !! "senha" ∧
   (∀ u, u ∈ usuarios → strict_eq (u !! "cpf") (body rq !! "cpf") = false) ∧
   disk_ok e = true).
Proof.
  cbn zeta. unfold post_cadastrar_tutor.
  destruct (truthy (body rq !! "nome")) eqn:Hnome;
    [|left; split; [apply failure_not_succeeded | done]].
  destruct (truthy (body rq !! "cpf")) eqn:Hcpf;
    [|left; split; [apply failure_not_succeeded | done]].
  destruct (truthy (body rq !! "telefone")) eqn:Htel;
    [|left; split; [apply failure_not_succeeded | done]].
  destruct (truthy (body rq !! "endereco")) eqn:Hend;
    [|left; split; [apply failure_not_succeeded | done]].
  destruct (truthy (body rq !! "senha")) eqn:Hsenha;
    [|left; split; [apply failure_not_succeeded | done]].
  cbn [negb orb].
  destruct (validateCPF _) eqn:Hvc;
    [|left; split; [apply failure_not_succeeded | done]].
  destruct (validatePhone _) eqn:Hvp;
    [|left; split; [apply failure_not_succeeded | done]].
  cbn [negb].
  destruct (short_senha _ _ _) eqn:Hshort;
    [left; split; [apply failure_not_succeeded | done]|].
  destruct (find _ _) as [u|] eqn:Hfind;
    [left; split; [apply failure_not_succeeded | done]|].
  unfold writeJSON. destruct (disk_ok e) eqn:Hdisk;
    [|left; split; [apply failure_not_succeeded | done]].
  right. split; [done|]. rewrite find_miss in Hfind.
  unfold tutor_ok, novoTutor.
  repeat split; try (intros u Hu; by apply Hfind);
    repeat (rewrite set_prop_lookup_ne by done); rewrite ?set_prop_lookup_eq; try done.
  - by rewrite set_prop_lookup_ne, set_prop_lookup_eq by done.
Qed.



End Tutor.

(** ** Logging in after a registration *)

Lemma post_login_credentials login senha (st : gmap string file) :
  truthy (Some login) = true → truthy (Some senha) = true →
  post_login (credentials login senha) st =
    match login_medico (Some login) (Some senha) st with
    | Some r => r
    | None =>
        match login_tutor (Some login) (Some senha) st with
        | Some r => r
        | None =>
            match login_funcionario (Some login) (Some senha) st with
            | Some r => r
            | None => failure "Usuário ou senha incorretos!"
            end
        end
    end.
Proof.
  intros Hlogin Hsenha. unfold post_login, credentials. cbn [body].
  rewrite lookup_insert_eq, lookup_insert_ne, lookup_singleton_eq by done.
  by rewrite Hlogin, Hsenha.
Qed.

Lemma login_search_succeeded login senha (st : gmap string file) resp :
  login_medico login senha st = Some resp ∨
  login_tutor login senha st = Some resp ∨
  login_funcionario login senha st = Some resp →
  succeeded resp.
Proof.
  unfold login_medico, login_tutor, login_funcionario.
  intros [H | [H | H]];
    destruct (find _ _) as [r|]; try done;
    destruct (strict_eq senha _); try done;
    injection H as <-; apply lookup_insert_eq.
Qed.

Lemma login_medico_miss login senha (st : gmap string file) :
  (∀ m, m ∈ readJSON st "medicos.json" → strict_eq (m !! "login") login = false) →
  login_medico login senha st = None.
Proof.
  intros Hmiss%find_miss. unfold login_medico. by rewrite Hmiss.
Qed.

Lemma login_tutor_miss login senha (st : gmap string file) :
  (∀ u, u ∈ readJSON st "usuarios.json" → strict_eq (u !! "login") login = false) →
  login_tutor login senha st = None.
Proof.
  intros Hmiss%find_miss. unfold login_tutor. by rewrite Hmiss.
Qed.

(** The record that was appended last is the one a search finds when no
    record before it has the login. *)
Lemma login_medico_last login senha (st : gmap string file) l r :
  readJSON st "medicos.json" = l ++ [r] →
  (∀ x, x ∈ l → strict_eq (x !! "login") login = false) →
  strict_eq (r !! "login") login = true → strict_eq senha (r !! "senha") = true →
  ∃ resp, login_medico login senha st = Some resp ∧ succeeded resp ∧
          tipo_of resp = Some (JStr "medico").
Proof.
  intros Hl Hmiss Hlogin Hsenha. unfold login_medico.
  rewrite Hl, (find_snoc _ l r Hmiss Hlogin), Hsenha.
  eexists. split; [done|]. split; [apply lookup_insert_eq|].
  unfold tipo_of. rewrite lookup_insert_ne, lookup_singleton_eq by done.
  cbn [set_prop]. rewrite lookup_delete_ne by done. apply lookup_insert_eq.
Qed.

Lemma login_tutor_last login senha (st : gmap string file) l r :
  readJSON st "usuarios.json" = l ++ [r] →
  (∀ x, x ∈ l → strict_eq (x !! "login") login = false) →
  strict_eq (r !! "login") login = true → strict_eq senha (r !! "senha") = true →
  ∃ resp, login_tutor login senha st = Some resp ∧ succeeded resp ∧
          tipo_of resp = Some (JStr "tutor").
Proof.
  intros Hl Hmiss Hlogin Hsenha. unfold login_tutor.
  rewrite Hl, (find_snoc _ l r Hmiss Hlogin), Hsenha.
  eexists. split; [done|]. split; [apply lookup_insert_eq|].
  unfold tipo_of. rewrite lookup_insert_ne, lookup_singleton_eq by done.
  cbn [set_prop]. rewrite lookup_delete_ne by done. apply lookup_insert_eq.
Qed.

Lemma login_funcionario_last login senha (st : gmap string file) l r :
  readJSON st "funcionarios.json" = l ++ [r] →
  (∀ x, x ∈ l → strict_eq (x !! "login") login = false) →
  strict_eq (r !! "login") login = true → strict_eq senha (r !! "senha") = true →
  ∃ resp, login_funcionario login senha st = Some resp ∧ succeeded resp ∧
          tipo_of resp = Some (JStr "funcionario").
Proof.
  intros Hl Hmiss Hlogin Hsenha. unfold login_funcionario.
  rewrite Hl, (find_snoc _ l r Hmiss Hlogin), Hsenha.
  eexists. split; [done|]. split; [apply lookup_insert_eq|].
  unfold tipo_of. rewrite lookup_insert_ne, lookup_singleton_eq by done.
  apply lookup_insert_eq.
Qed.

Section TutorLogin.

Variable to_string : json → string.
Variable string_lt : string → Z → bool.


End TutorLogin.

(** ** Registering a veterinarian *)

Section Vet.

Variable to_string : json → string.
Variable string_lt : string → Z → bool.

Lemma cadastrar_vet_outcome e rq (st : gmap string file) :
  let result := post_cadastrar_vet to_string string_lt e rq st in
  let medicos := readJSON st "medicos.json" in
  let novo := novoMedico e (body rq !! "nome") (body rq !! "login")
                (body rq !! "crmv") (body rq !! "contato") (body rq !! "senha") in
  (¬ succeeded result.1 ∧ result.2 = st) ∨
  (result = (success "Cadastro realizado com sucesso!",
             <["medicos.json" := Parsed (medicos ++ [novo])]> st) ∧
   medico_ok to_string string_lt novo ∧
   novo !! "login" = body rq !! "login" ∧ novo !! "crmv" = body rq !! "crmv" ∧
   novo !! "senha" = body rq !! "senha" ∧
   (∀ m, m ∈ medicos → strict_eq (m !! "login") (body rq !! "login") = false) ∧
   (∀ m, m ∈ medicos → strict_eq (m !! "crmv") (body rq !! "crmv") = false) ∧
   disk_ok e = true).
Proof.
  cbn zeta. unfold post_cadastrar_vet.
  destruct (truthy (body rq !! "nome")) eqn:Hnome;
    [|left; split; [apply failure_not_succeeded | done]].
  destruct (truthy (body rq !! "login")) eqn:Hlogin;
    [|left; split; [apply failure_not_succeeded | done]].
  destruct (truthy (body rq !! "crmv")) eqn:Hcrmv;
    [|left; split; [apply failure_not_succeeded | done]].
  destruct (truthy (body rq !! "contato")) eqn:Hcontato;
    [|left; split; [apply failure_not_succeeded | done]].
  destruct (truthy (body rq !! "senha")) eqn:Hsenha;
    [|left; split; [apply failure_not_succeeded | done]].
  cbn [negb orb].
  destruct (short_senha _ _ _) eqn:Hshort;
    [left; split; [apply failure_not_succeeded | done]|].
  destruct (validatePhone _) eqn:Hvp;
    [|left; split; [apply failure_not_succeeded | done]].
  cbn [negb].
  destruct (find _ _) as [m|] eqn:Hfind;
    [left; split; [apply failure_not_succeeded | done]|].
  destruct (find (λ m, strict_eq (m !! "crmv") _) _) as [m|] eqn:Hfind2;
    [left; split; [apply failure_not_succeeded | done]|].
  unfold writeJSON. destruct (disk_ok e) eqn:Hdisk;
    [|left; split; [apply failure_not_succeeded | done]].
  right. split; [done|]. rewrite find_miss in Hfind. rewrite find_miss in Hfind2.
  unfold medico_ok, novoMedico.
  repeat split; try (intros m Hm; by (apply Hfind || apply Hfind2));
    repeat (rewrite set_prop_lookup_ne by done); rewrite ?set_prop_lookup_eq; done.
Qed.



End Vet.

(** ** Registering a funcionario *)

Lemma cadastrar_funcionario_outcome e rq (st : gmap string file) :
  let result := post_cadastrar_funcionario e rq st in
  let funcionarios := readJSON st "funcionarios.json" in
  let novo := novoFuncionario e (body rq !! "nome") (body rq !! "login")
                (body rq !! "contato") (body rq !! "senha") (body rq !! "role")
                (body rq !! "crmv") in
  (¬ succeeded result.1 ∧ result.2 = st) ∨
  (result = ({[ "success" := JBool true;
                "message" := JStr "Funcionário cadastrado com sucesso";
                "funcionario" := JObj (delete "senha" novo) ]},
             <["funcionarios.json" := Parsed (funcionarios ++ [novo])]> st) ∧
   funcionario_ok novo ∧
   novo !! "login" = body rq !! "login" ∧ novo !! "senha" = body rq !! "senha" ∧
   (∀ f, f ∈ funcionarios → strict_eq (f !! "login") (body rq !! "login") = false) ∧
   disk_ok e = true).
Proof.
  cbn zeta. unfold post_cadastrar_funcionario.
  destruct (truthy (body rq !! "nome")) eqn:Hnome;
    [|left; split; [apply failure_not_succeeded | done]].
  destruct (truthy (body rq !! "login")) eqn:Hlogin;
    [|left; split; [apply failure_not_succeeded | done]].
  destruct (truthy (body rq !! "contato")) eqn:Hcontato;
    [|left; split; [apply failure_not_succeeded | done]].
  destruct (truthy (body rq !! "senha")) eqn:Hsenha;
    [|left; split; [apply failure_not_succeeded | done]].
  cbn [negb orb].
  destruct (find _ _) as [f|] eqn:Hfind;
    [left; split; [apply failure_not_succeeded | done]|].
  destruct (is_role (body rq !! "role") "Estagiario" && truthy (body rq !! "crmv")) eqn:Hest;
    [left; split; [apply failure_not_succeeded | done]|].
  unfold writeJSON. destruct (disk_ok e) eqn:Hdisk;
    [|left; split; [apply failure_not_succeeded | done]].
  right. split; [unfold set_prop; f_equal|]. rewrite find_miss in Hfind.
  unfold funcionario_ok, novoFuncionario.
  repeat split; try (intros f Hf; by apply Hfind);
    repeat (rewrite set_prop_lookup_ne by done); rewrite ?set_prop_lookup_eq; try done.
  intros Hrole. rewrite Hrole in Hest. cbn [andb] in Hest.
  repeat (rewrite set_prop_lookup_ne by done). rewrite set_prop_lookup_eq.
  unfold crmv_or_null. by rewrite Hest.
Qed.




(** ** Removing a funcionario *)

Lemma medicos_vet_delete (l : list (gmap string json)) i r :
  l !! i = Some r → is_role (r !! "role") "Medico vet" = false →
  medicos_vet (delete i l) = medicos_vet l.
Proof.
  intros Hi Hrole. unfold medicos_vet.
  rewrite <- (take_drop_middle l i r Hi) at 2.
  rewrite delete_take_drop, !filter_app, filter_cons_False; [done|].
  by rewrite Hrole.
Qed.

Section Delete.

Variable loose_eq : option json → string → bool.

Lemma delete_funcionario_outcome e rq (st : gmap string file) :
  let result := delete_funcionario loose_eq e rq st in
  (¬ succeeded result.1 ∧ result.2 = st) ∨
  (∃ i current,
     matched_funcionario loose_eq rq st = Some (i, current) ∧
     is_role (current !! "role") "Medico vet" = false ∧
     disk_ok e = true ∧
     result = (success "Funcionário excluído com sucesso",
               <["funcionarios.json" :=
                   Parsed (delete i (readJSON st "funcionarios.json"))]> st)).
Proof.
  cbn zeta. unfold delete_funcionario, matched_funcionario.
  destruct (findIndex _ _) as [[i current]|];
    [|left; split; [apply failure_not_succeeded | done]].
  destruct (is_role _ _) eqn:Hrole;
    [left; split; [apply failure_not_succeeded | done]|].
  unfold writeJSON. destruct (disk_ok e) eqn:Hdisk;
    [|left; split; [apply failure_not_succeeded | done]].
  right. by exists i, current.
Qed.


(** X11.  A successful DELETE /api/funcionarios/:id removes exactly the
    matched record: when the id matches a record that is not a 'Medico
    vet' and the write goes through, the records before it keep their
    place, those after it move up by one and the collection is one
    shorter.  When no other record has that id, the id is then unknown: a
    second DELETE and a PUT with it answer 'Funcionário não encontrado'. *)
Theorem delete_funcionario_removes_matched e rq (st : gmap string file) i current :
  matched_funcionario loose_eq rq st = Some (i, current) →
  is_role (current !! "role") "Medico vet" = false →
  disk_ok e = true →
  let before := readJSON st "funcionarios.json" in
  let result := delete_funcionario loose_eq e rq st in
  let after := readJSON result.2 "funcionarios.json" in
  result.1 = success "Funcionário excluído com sucesso" ∧
  S (length after) = length before ∧
  (∀ j, j < i → after !! j = before !! j) ∧
  (∀ j, i ≤ j → after !! j = before !! S j) ∧
  ((∀ j r, before !! j = Some r → j ≠ i → loose_eq (r !! "id") (param rq) = false) →
   ∀ e', delete_funcionario loose_eq e' rq result.2
           = (failure "Funcionário não encontrado", result.2) ∧
         put_funcionario loose_eq e' rq result.2
           = (failure "Funcionário não encontrado", result.2)).
Proof.
  intros Hm Hrole Hdisk. pose proof Hm as (Hi & _)%findIndex_spec. cbn zeta.
  assert (delete_funcionario loose_eq e rq st =
            (success "Funcionário excluído com sucesso",
             <["funcionarios.json" :=
                 Parsed (delete i (readJSON st "funcionarios.json"))]> st)) as ->.
  { unfold delete_funcionario. unfold matched_funcionario in Hm.
    rewrite Hm, Hrole. unfold writeJSON. by rewrite Hdisk. }
  cbn [fst snd]. rewrite readJSON_insert_eq.
  split; [done|]. split.
  { rewrite length_delete by eauto. apply lookup_lt_Some in Hi. lia. }
  split; [intros j Hj; by apply list_lookup_delete_lt|].
  split; [intros j Hj; by apply list_lookup_delete_ge|].
  intros Hunique e'.
  assert (matched_funcionario loose_eq rq
            (<["funcionarios.json" := Parsed (delete i (readJSON st "funcionarios.json"))]> st)
          = None) as Hnone.
  { unfold matched_funcionario, findIndex. rewrite readJSON_insert_eq.
    apply find_from_None. intros x [j Hj]%list_elem_of_lookup_1.
    destruct (decide (j < i)).
    - rewrite list_lookup_delete_lt in Hj by done. eapply Hunique; [done | lia].
    - rewrite list_lookup_delete_ge in Hj by lia. eapply Hunique; [done | lia]. }
  split; [|by apply put_funcionario_not_found].
  unfold delete_funcionario. unfold matched_funcionario in Hnone. by rewrite Hnone.
Qed.

End Delete.

(** ** Updating a pet *)

Section Pets.

Variable loose_eq : option json → string → bool.


(** ** What the sub-record saves leave alone *)

Lemma put_pet_owned change saved not_saved (owned : list string) e rq
    (st : gmap string file) i pet :
  (∀ p k, k ∉ owned → change p !! k = p !! k) →
  matched_pet loose_eq rq st = Some (i, pet) →
  let st' := (put_pet loose_eq change saved not_saved e rq st).2 in
  (∃ pet', readJSON st' "animais.json" !! i = Some pet' ∧
           ∀ k, k ∉ owned → pet' !! k = pet !! k) ∧
  (∀ j, j ≠ i → readJSON st' "animais.json" !! j = readJSON st "animais.json" !! j) ∧
  (∀ f, f ≠ "animais.json" → st' !! f = st !! f).
Proof.
  intros Howned Hm.
  destruct (put_pet_frame loose_eq change saved not_saved e rq st i pet Hm)
    as (Hfiles & _ & Hothers & Hpet).
  cbn zeta. split; [|done].
  eexists. split; [exact Hpet|].
  intros k Hk. destruct (disk_ok e); [by apply Howned | done].
Qed.





End Pets.

(** ** The pets of a tutor *)

Lemma strict_eq_str (v : option json) s :
  strict_eq v (Some (JStr s)) = true ↔ v = Some (JStr s).
Proof.
  destruct v as [[]|]; simpl; try (split; [done | by intros [=]]).
  rewrite String.eqb_eq. split; [by intros -> | by intros [= ->]].
Qed.

(** X17.  GET /api/pets-tutor/:cpf lists, in the order of the file,
    exactly the stored pets whose [tutorCpf] is the string [cpf]; a pet
    whose tutorCpf is stored as a number is not listed. *)
Theorem pets_tutor_lists_own_pets rq (st : gmap string file) :
  ∃ pets,
    get_pets_tutor rq st = {[ "success" := JBool true; "pets" := JArr (JObj <$> pets) ]} ∧
    pets `sublist_of` readJSON st "animais.json" ∧
    (∀ p, p ∈ pets ↔
          p ∈ readJSON st "animais.json" ∧ p !! "tutorCpf" = Some (JStr (param rq))) ∧
    (∀ p n, p ∈ pets → p !! "tutorCpf" ≠ Some (JNum n)).
Proof.
  eexists. split; [reflexivity|]. split; [apply sublist_filter|]. split.
  - intros p. rewrite list_elem_of_filter, strict_eq_str. tauto.
  - intros p n [Hp _]%list_elem_of_filter Hn. rewrite Hn in Hp. done.
Qed.

(** Membership in a list that is written out. *)
Ltac listed :=
  repeat first [ apply list_elem_of_here | apply list_elem_of_further ].

Ltac not_listed :=
  let Hin := fresh in
  intros Hin;
  repeat (apply elem_of_cons in Hin as [Hin | Hin]; [done|]);
  by apply elem_of_nil in Hin.

Lemma novoPet_lookup e (petData : gmap string json) k :
  k ∉ ["tag"; "anamnese"; "observacoes"; "dataCadastro"] →
  novoPet e petData !! k =
    match petData !! k with
    | Some v => Some v
    | None => if decide (k = "id") then Some (JNum (date_now e)) else None
    end.
Proof.
  intros Hk. unfold novoPet.
  rewrite !lookup_insert_ne by (intros <-; apply Hk; listed).
  destruct (petData !! k) as [v|] eqn:Hv.
  - by apply lookup_union_Some_l.
  - rewrite lookup_union_r by done.
    destruct (decide (k = "id")) as [-> | Hne].
    + apply lookup_singleton_eq.
    + by apply lookup_singleton_ne.
Qed.

(** X18.  A pet that was registered is listed for its tutor: after a POST
    /api/salvar-pet whose write went through, GET /api/pets-tutor/:cpf
    lists the pets it listed before, followed by the new pet when the
    [tutorCpf] of the body is the string [cpf], and the same pets
    otherwise. *)
Theorem registered_pet_is_listed_for_its_tutor e rq rq2 (st : gmap string file) :
  disk_ok e = true →
  let st' := (post_salvar_pet e rq st).2 in
  ∃ listed novo,
    get_pets_tutor rq2 st
      = {[ "success" := JBool true; "pets" := JArr (JObj <$> listed) ]} ∧
    readJSON st' "animais.json" = readJSON st "animais.json" ++ [novo] ∧
    get_pets_tutor rq2 st'
      = {[ "success" := JBool true;
           "pets" := JArr (JObj <$> (listed ++
                       if strict_eq (body rq !! "tutorCpf") (Some (JStr (param rq2)))
                       then [novo] else [])) ]}.
Proof.
  intros Hdisk. cbn zeta. unfold post_salvar_pet.
  rewrite (readJSON_write _ _ _ _ Hdisk). cbn [snd].
  eexists _, (novoPet e (body rq)). split; [reflexivity|].
  rewrite readJSON_insert_eq. split; [done|].
  unfold get_pets_tutor. rewrite readJSON_insert_eq, filter_app.
  do 4 f_equal.
  assert (novoPet e (body rq) !! "tutorCpf" = body rq !! "tutorCpf") as Hcpf.
  { rewrite novoPet_lookup by not_listed. by destruct (body rq !! "tutorCpf"). }
  destruct (strict_eq (body rq !! "tutorCpf") _) eqn:Heq.
  - rewrite filter_cons_True; [done|]. by rewrite Hcpf.
  - rewrite filter_cons_False; [done|]. by rewrite Hcpf, Heq.
Qed.


(** ** What PUT /api/funcionarios/:id stores and shows *)

Lemma is_role_eq (v : option json) r : is_role v r = true ↔ v = Some (JStr r).
Proof. apply strict_eq_str. Qed.

Lemma strip_crmv_lookup (updateData current : gmap string json) k :
  k ≠ "crmv" → strip_crmv updateData current !! k = updateData !! k.
Proof.
  intros Hk. unfold strip_crmv.
  repeat match goal with |- context [if ?b then _ else _] => destruct b end;
    by rewrite ?lookup_delete_ne.
Qed.

Lemma apply_update_lookup (updateData current : gmap string json) k :
  k ∉ ["id"; "dataCadastro"; "crmv"] →
  apply_update updateData current !! k =
    match updateData !! k with Some v => Some v | None => current !! k end.
Proof.
  intros Hk. unfold apply_update.
  assert (delete "dataCadastro" (delete "id" (strip_crmv updateData current)) !! k
          = updateData !! k) as Hallowed.
  { rewrite !lookup_delete_ne by (intros <-; apply Hk; listed).
    apply strip_crmv_lookup. intros ->. apply Hk. listed. }
  destruct (updateData !! k) as [v|] eqn:Hv.
  - by apply lookup_union_Some_l.
  - by apply lookup_union_r.
Qed.

(** An Estagiario whose body does not ask for 'Vet junior' is either
    refused or keeps its CRMV out of the update. *)
Lemma estagiario_update (updateData current : gmap string json) :
  is_role (current !! "role") "Estagiario" = true →
  is_role (updateData !! "role") "Vet junior" = false →
  role_check updateData current = None →
  apply_update updateData current !! "crmv" = current !! "crmv".
Proof.
  intros Hest Hvj Hcheck. pose proof Hest as Hrole%is_role_eq.
  unfold apply_update. apply lookup_union_r.
  rewrite !lookup_delete_ne by done.
  unfold strip_crmv. rewrite Hest.
  unfold role_check in Hcheck.
  destruct (truthy (updateData !! "role")) eqn:Htruthy.
  - destruct (strict_eq (updateData !! "role") (current !! "role")) eqn:Hsame.
    + rewrite Hrole in Hsame. apply strict_eq_str in Hsame. rewrite Hsame.
      cbn. apply lookup_delete_eq.
    + exfalso. cbn [negb andb] in Hcheck. unfold role_rule in Hcheck.
      rewrite Hest, Hvj, Hrole in Hcheck. cbn in Hcheck. done.
  - rewrite Hrole. cbn. apply lookup_delete_eq.
Qed.

Section Update.

Variable loose_eq : option json → string → bool.



End Update.

(** ** When the disk refuses the write *)

Section FailedWrite.

Variable loose_eq : option json → string → bool.
Variable to_string : json → string.
Variable string_lt : string → Z → bool.

Lemma put_pet_failed_write change saved not_saved e rq (st : gmap string file) :
  disk_ok e = false →
  let result := put_pet loose_eq change saved not_saved e rq st in
  ¬ succeeded result.1 ∧ result.2 = st.
Proof.
  intros Hdisk. cbn zeta.
  destruct (matched_pet loose_eq rq st) as [[i pet]|] eqn:Hm.
  - rewrite (put_pet_not_saved _ _ _ _ _ _ _ _ _ Hm Hdisk).
    split; [apply failure_not_succeeded | done].
  - rewrite (put_pet_not_found _ _ _ _ _ _ _ Hm).
    split; [apply failure_not_succeeded | done].
Qed.


End FailedWrite.

(** ** The properties at the sample data *)

Lemma desk_usuarios_well_formed :
  Forall (tutor_ok to_string_js string_lt_js) (readJSON Desk.disk "usuarios.json") ∧
  distinct_field "cpf" (readJSON Desk.disk "usuarios.json").
Proof.
  change (readJSON Desk.disk "usuarios.json") with [Desk.gil]. split.
  - constructor; [|constructor]. unfold tutor_ok. repeat split; vm_compute; reflexivity.
  - intros [|i] [|j] r1 r2; simpl; done.
Qed.

Lemma desk_medicos_well_formed :
  Forall (medico_ok to_string_js string_lt_js) (readJSON Desk.disk "medicos.json") ∧
  distinct_logins (readJSON Desk.disk "medicos.json") ∧
  distinct_field "crmv" (readJSON Desk.disk "medicos.json").
Proof.
  change (readJSON Desk.disk "medicos.json") with [Desk.hugo]. repeat split.
  - constructor; [|constructor]. unfold medico_ok. repeat split; vm_compute; reflexivity.
  - intros [|i] [|j] r1 r2; simpl; done.
  - intros [|i] [|j] r1 r2; simpl; done.
Qed.

Lemma desk_funcionarios_well_formed :
  Forall funcionario_ok (readJSON Desk.disk "funcionarios.json") ∧
  distinct_logins (readJSON Desk.disk "funcionarios.json").
Proof.
  change (readJSON Desk.disk "funcionarios.json") with [Sample.carlos; Desk.iris]. split.
  - constructor; [|constructor; [|constructor]];
      (unfold funcionario_ok; repeat split; try (vm_compute; reflexivity)).
    intros Hrole. vm_compute in Hrole. discriminate Hrole.
  - intros [|[|i]] [|[|j]] r1 r2; simpl; try done;
      intros [= <-] [= <-]; by vm_compute.
Qed.








Lemma delete_funcionario_removes_matched_witness :
  let rq := Sample.req (Some "funcionario") "12" ∅ in
  (matched_funcionario loose_eq_id rq Desk.disk = Some (1, Desk.iris) ∧
   is_role (Desk.iris !! "role") "Medico vet" = false ∧
   disk_ok Sample.clock = true) ∧
  readJSON (delete_funcionario loose_eq_id Sample.clock rq Desk.disk).2 "funcionarios.json"
    !! 0 = Some Sample.carlos ∧
  length (readJSON (delete_funcionario loose_eq_id Sample.clock rq Desk.disk).2
            "funcionarios.json") = 1.
Proof.
  intros rq.
  assert (matched_funcionario loose_eq_id rq Desk.disk = Some (1, Desk.iris)) as Hm
    by (vm_compute; reflexivity).
  split; [repeat split; try exact Hm; vm_compute; reflexivity|].
  destruct (delete_funcionario_removes_matched loose_eq_id Sample.clock rq Desk.disk
              1 Desk.iris Hm eq_refl eq_refl) as (_ & Hlen & Hbefore & _).
  split.
  - rewrite Hbefore by lia. vm_compute; reflexivity.
  - vm_compute; reflexivity.
Defined.






Lemma registered_pet_is_listed_for_its_tutor_witness :
  let rq := Sample.req (Some "tutor") ""
              {[ "nome" := JStr "Bob"; "tutorCpf" := JStr "12345678901" ]} in
  let rq2 := Sample.req (Some "tutor") "12345678901" ∅ in
  disk_ok Sample.clock = true ∧
  ∃ listed novo,
    get_pets_tutor rq2 Sample.disk
      = {[ "success" := JBool true; "pets" := JArr (JObj <$> listed) ]} ∧
    get_pets_tutor rq2 (post_salvar_pet Sample.clock rq Sample.disk).2
      = {[ "success" := JBool true; "pets" := JArr (JObj <$> (listed ++ [novo])) ]}.
Proof.
  intros rq rq2. split; [reflexivity|].
  destruct (registered_pet_is_listed_for_its_tutor Sample.clock rq rq2 Sample.disk eq_refl)
    as (listed & novo & Hbefore & _ & Hafter).
  exists listed, novo. split; [exact Hbefore | exact Hafter].
Defined.




